(** * pidgin/widgets: registration, upgrade, parse and the descriptor factories

    A shallow embedding of [widgets.js].  JavaScript objects live in a store
    that is split by field (own properties, prototype links, host data of DOM
    elements); the module-level [registry] and [selectors] variables are two
    more fields of the same store.  Code supplied by the application
    (lifecycle callbacks, the getter and setter handed to
    [getShadowCalculatedDescriptor]) and the collaborators the module imports
    ([compose], [doc], [has]) are parameters of the development.

    Objects hold data properties only: the accessors that the descriptor
    factories make are studied on their own, as the pair of functions [get]
    and [set] applied to [this].  The module's plain objects [registry] and
    [tags] are finite maps for their own keys; what they inherit is read
    from the object [Object.prototype] of the store. *)

From Stdlib Require Import ZArith String Ascii List Bool Lia.
From stdpp Require Import base option gmap strings list pretty.

Open Scope string_scope.

(** ** JavaScript values *)

Definition loc := positive.
Definition fid := positive.

(** Numbers are the integers plus [NaN]; other floating point numbers are
    left out. *)
Inductive value :=
  | VUndef
  | VNull
  | VBool (b : bool)
  | VNum (n : Z)
  | VNaN
  | VStr (s : string)
  | VRef (l : loc).

#[global] Instance value_eq_dec : EqDecision value.
Proof. solve_decision. Defined.

(** [ToBoolean]: the falsy values are [undefined], [null], [false], [0],
    [NaN] and the empty string. *)
Definition truthy (v : value) : bool :=
  match v with
  | VUndef | VNull | VNaN => false
  | VBool b => b
  | VNum n => negb (n =? 0)%Z
  | VStr s => negb (bool_decide (s = EmptyString))
  | VRef _ => true
  end.

(** [a === b]; [NaN] is not equal to itself. *)
Definition strict_eq (a b : value) : bool :=
  match a, b with
  | VNaN, _ | _, VNaN => false
  | _, _ => bool_decide (a = b)
  end.

(** [a || b] *)
Definition js_or (a b : value) : value := if truthy a then a else b.

(** [ToString], as [setAttribute] applies it to its second argument.  Objects
    print as the default [Object.prototype.toString] does. *)
Definition ToString (v : value) : string :=
  match v with
  | VUndef => "undefined"
  | VNull => "null"
  | VBool true => "true"
  | VBool false => "false"
  | VNum n => pretty n
  | VNaN => "NaN"
  | VStr s => s
  | VRef _ => "[object Object]"
  end.

(** ** Strings *)

Definition is_upper (c : ascii) : bool :=
  let n := nat_of_ascii c in Nat.leb 65 n && Nat.leb n 90.
Definition is_lower (c : ascii) : bool :=
  let n := nat_of_ascii c in Nat.leb 97 n && Nat.leb n 122.
Definition lower_char (c : ascii) : ascii :=
  if is_upper c then ascii_of_nat (nat_of_ascii c + 32) else c.
Definition upper_char (c : ascii) : ascii :=
  if is_lower c then ascii_of_nat (nat_of_ascii c - 32) else c.

(** [str.toLowerCase()], on ASCII. *)
Fixpoint toLowerCase (s : string) : string :=
  match s with
  | EmptyString => EmptyString
  | String c r => String (lower_char c) (toLowerCase r)
  end.

(** [s.replace(/-([a-z])/g, function (m, w) { return w.toUpperCase(); })] *)
Fixpoint replace_dashes (s : string) : string :=
  match s with
  | EmptyString => EmptyString
  | String c r =>
      if Ascii.eqb c "-"%char then
        match r with
        | String d r' =>
            if is_lower d then String (upper_char d) (replace_dashes r')
            else String c (replace_dashes r)
        | EmptyString => String c EmptyString
        end
      else String c (replace_dashes r)
  end.

Definition toCamelCase (str : string) : string :=
  replace_dashes (toLowerCase str).

(** [array.join(",")], which is how [querySelectorAll] sees the array of
    selectors it is handed. *)
Fixpoint join (l : list string) : string :=
  match l with
  | [] => EmptyString
  | [s] => s
  | s :: r => s ++ "," ++ join r
  end.

(** ** The store *)

(** Host data of a DOM element. *)
Record element := Element {
  e_nodeName : string;
  e_attrs : gmap string string;
  e_attached : bool  (* doc.documentElement.contains(element) *)
}.

(** Widget metadata, the values of [registry]: [{prototype, extends,
    _prototype}].  The module tests [extends] for truthiness and uses it as
    a string only, so the record holds its string form, if it is truthy. *)
Record widget := Widget {
  wg_prototype : loc;
  wg_extends : option string;
  wg__prototype : option (gmap string value)
}.

Record world := World {
  w_props : gmap loc (gmap string value);  (* own properties *)
  w_proto : gmap loc loc;                  (* __proto__ *)
  w_dom : gmap loc element;                (* DOM elements *)
  w_code : gmap loc fid;                   (* functions: the code they run *)
  w_registry : gmap string widget;         (* var registry = {} *)
  w_selectors : list string                (* var selectors = [] *)
}.

Definition own (w : world) (l : loc) : gmap string value :=
  default ∅ (w_props w !! l).

(** Property lookup along the prototype chain; a chain has at most one link
    per object that has a prototype. *)
Fixpoint get_prop (fuel : nat) (w : world) (l : loc) (k : string) : option value :=
  match own w l !! k with
  | Some v => Some v
  | None =>
      match fuel with
      | O => None
      | S n =>
          match w_proto w !! l with
          | Some p => get_prop n w p k
          | None => None
          end
      end
  end.

(** [obj[k]] *)
Definition Get (w : world) (l : loc) (k : string) : value :=
  default VUndef (get_prop (size (w_proto w)) w l k).

(** [k in obj] *)
Definition Has (w : world) (l : loc) (k : string) : bool :=
  bool_decide (is_Some (get_prop (size (w_proto w)) w l k)).

(** [obj[k] = v] on a data property: the own property is written. *)
Definition set_own (w : world) (l : loc) (k : string) (v : value) : world :=
  World (<[l := <[k := v]> (own w l)]> (w_props w))
        (w_proto w) (w_dom w) (w_code w) (w_registry w) (w_selectors w).

(** [obj.__proto__ = p]; that the engine refuses a cyclic chain is not
    modelled. *)
Definition set_proto (w : world) (l p : loc) : world :=
  World (w_props w) (<[l := p]> (w_proto w)) (w_dom w)
        (w_code w) (w_registry w) (w_selectors w).

(** [obj.__proto__ = v] for an arbitrary value: an object becomes the
    prototype, [null] removes it, any other value is ignored. *)
Definition assign_proto (w : world) (l : loc) (v : value) : world :=
  match v with
  | VRef p => set_proto w l p
  | VNull =>
      World (w_props w) (delete l (w_proto w)) (w_dom w)
            (w_code w) (w_registry w) (w_selectors w)
  | _ => w
  end.

(** [Object.defineProperties(obj, defs)] for a table of data properties. *)
Definition defineProperties (w : world) (l : loc) (defs : gmap string value) : world :=
  World (<[l := defs ∪ own w l]> (w_props w))
        (w_proto w) (w_dom w) (w_code w) (w_registry w) (w_selectors w).

Definition set_element (w : world) (l : loc) (e : element) : world :=
  World (w_props w) (w_proto w) (<[l := e]> (w_dom w))
        (w_code w) (w_registry w) (w_selectors w).

(** ** Exceptions and outcomes *)

Inductive exn :=
  | DuplicateTagError (tag : string)
  | InvalidBaseError
  | UnresolvableBaseNameError
  | UnrecognizedBaseError (baseName : string)
  | UndefinedNodeError (attributeName : string)
  | UndefinedDelegateError (propertyName : string)
  | NativeTypeError       (* raised by the engine: call or member of a non-object *)
  | HostError             (* raised by a host API *)
  | UserError (v : value) (* raised by application code *).

(** A call either returns a value or throws; both leave a store behind. *)
Inductive outcome (A : Type) :=
  | Ret (a : A) (w : world)
  | Throw (e : exn) (w : world).
Arguments Ret {A} a w.
Arguments Throw {A} e w.

Definition world_of {A} (o : outcome A) : world :=
  match o with Ret _ w => w | Throw _ w => w end.

Definition bind {A B} (m : outcome A) (k : A → world → outcome B) : outcome B :=
  match m with
  | Ret a w => k a w
  | Throw e w => Throw e w
  end.

(** ** DOM attribute methods *)

(** [v.getAttribute(name)] *)
Definition getAttribute (v : value) (name : string) (w : world) : outcome value :=
  match v with
  | VRef l =>
      match w_dom w !! l with
      | Some e =>
          Ret (match e_attrs e !! name with Some s => VStr s | None => VNull end) w
      | None => Throw NativeTypeError w
      end
  | _ => Throw NativeTypeError w
  end.

(** [v.setAttribute(name, value)] *)
Definition setAttribute (v : value) (name : string) (x : value) (w : world) : outcome unit :=
  match v with
  | VRef l =>
      match w_dom w !! l with
      | Some e =>
          Ret tt (set_element w l
                    (Element (e_nodeName e) (<[name := ToString x]> (e_attrs e)) (e_attached e)))
      | None => Throw NativeTypeError w
      end
  | _ => Throw NativeTypeError w
  end.

(** [v.removeAttribute(name)] *)
Definition removeAttribute (v : value) (name : string) (w : world) : outcome unit :=
  match v with
  | VRef l =>
      match w_dom w !! l with
      | Some e =>
          Ret tt (set_element w l
                    (Element (e_nodeName e) (delete name (e_attrs e)) (e_attached e)))
      | None => Throw NativeTypeError w
      end
  | _ => Throw NativeTypeError w
  end.

(** [v[k]] for an arbitrary value [v]: [None] stands for the [TypeError] of
    reading a member of [undefined] or [null].  Members of the other
    primitive values come from the built-in prototypes, which are not
    modelled: reading one gives [undefined].  Objects are read as data
    properties; a property that is an accessor (as host objects have them)
    is outside the store. *)
Definition member (w : world) (v : value) (k : string) : option value :=
  match v with
  | VUndef | VNull => None
  | VRef l => Some (Get w l k)
  | _ => Some VUndef
  end.

(** [v[k] = x] for a truthy [v], in strict mode: writing a member of a
    primitive throws.  The write is that of a data property; a property
    with a setter is outside the store. *)
Definition assign_member (v : value) (k : string) (x : value) (w : world) : outcome unit :=
  match v with
  | VRef l => Ret tt (set_own w l k x)
  | _ => Throw NativeTypeError w
  end.

(** ** The [shadow] helper *)

(** Modelled from the spec: [properties.shadow] of [lib/core/properties],
    which is not part of the sources at hand.  It "defines a non-enumerable
    backing property": [shadow(dest, name, value)] stores [value] in the own
    property ["_" + name] of [dest], and the callers below use what it
    returns as that value.  Enumerability is not tracked by the store. *)
Definition shadow (dest : loc) (name : string) (v : value) (w : world) : outcome value :=
  Ret v (set_own w dest ("_" ++ name) v).

(** ** Descriptor factories *)

Record descriptor := Descriptor {
  d_get : loc → world → outcome value;         (* get.call(this) *)
  d_set : loc → value → world → outcome unit;  (* set.call(this, value) *)
  d_enumerable : bool;
  d_configurable : bool
}.

(** [enumerable === undefined ? true : enumerable] *)
Definition enumerable_or_true (enumerable : option bool) : bool :=
  match enumerable with None => true | Some b => b end.

(** An accessor linked to the attribute [attributeName] of the node held
    by the property [nodeName] of [this]. *)
Definition getDomAttributeDescriptor
    (nodeName attributeName : string) (enumerable : option bool) : descriptor :=
  {| d_get := λ this w,
       if truthy (Get w this nodeName)
       then getAttribute (Get w this nodeName) attributeName w
       else Ret VNull w;
     d_set := λ this v w,
       if truthy (Get w this nodeName) then
         if truthy v
         then setAttribute (Get w this nodeName) attributeName v w
         else removeAttribute (Get w this nodeName) attributeName w
       else Throw (UndefinedNodeError attributeName) w;
     d_enumerable := enumerable_or_true enumerable;
     d_configurable := true |}.

(** The same, with the value shadowed so that it can be read while the
    node is not there. *)
Definition getShadowDomAttributeDescriptor
    (nodeName attributeName : string) (enumerable : option bool) : descriptor :=
  let shadowName := nodeName ++ "_" ++ toCamelCase attributeName in
  let shadowPropertyName := "_" ++ shadowName in
  {| d_get := λ this w,
       bind (if truthy (Get w this nodeName)
             then getAttribute (Get w this nodeName) attributeName w
             else Ret (js_or (Get w this shadowPropertyName) VNull) w)
         (λ v w,
            if negb (strict_eq v (Get w this shadowPropertyName)) then
              if strict_eq v VNull && Has w this shadowPropertyName
              then Ret (Get w this shadowPropertyName) w
              else shadow this shadowName v w
            else Ret v w);
     d_set := λ this v w,
       bind (if negb (strict_eq v (Get w this shadowPropertyName))
             then shadow this shadowName v w
             else Ret v w)
         (λ _ w,
            if truthy (Get w this nodeName) then
              if truthy v
              then setAttribute (Get w this nodeName) attributeName v w
              else removeAttribute (Get w this nodeName) attributeName w
            else Ret tt w);
     d_enumerable := enumerable_or_true enumerable;
     d_configurable := true |}.

(** An accessor that computes its value with a getter and a setter.  Both
    are application code: they are called with [this], the property name
    and a value, and may change the store or throw. *)
Definition getShadowCalculatedDescriptor
    (name : string)
    (getter setter : loc → string → value → world → outcome value)
    (enumerable : option bool) : descriptor :=
  let shadowName := "_" ++ name in
  {| d_get := λ this w,
       bind (getter this name (Get w this shadowName) w)
         (λ v w,
            if negb (strict_eq v (Get w this shadowName))
            then shadow this name v w
            else Ret v w);
     d_set := λ this v w,
       bind (setter this name v w)
         (λ v w, bind (shadow this name v w) (λ _ w, Ret tt w));
     d_enumerable := enumerable_or_true enumerable;
     d_configurable := true |}.

(** An accessor that delegates to the property [propertyName] of the
    object held by the property [delegateName] of [this]. *)
Definition getDelegateDescriptor
    (delegateName propertyName : string) (enumerable : option bool) : descriptor :=
  {| d_get := λ this w,
       if truthy (Get w this delegateName) then
         match member w (Get w this delegateName) propertyName with
         | Some v => Ret v w
         | None => Throw NativeTypeError w
         end
       else Ret VUndef w;
     d_set := λ this v w,
       if truthy (Get w this delegateName)
       then assign_member (Get w this delegateName) propertyName v w
       else Throw (UndefinedDelegateError propertyName) w;
     d_enumerable := enumerable_or_true enumerable;
     d_configurable := true |}.

(** ** Traces *)

(** The calls that matter to the caller of [upgrade] and [parse] are
    recorded in a log next to the store: entering [upgrade], the two
    mutations of the node, each lifecycle callback with the store it was
    started on, and each query of the document.  The log is write-only; it
    never influences a result. *)
Inductive event :=
  | EvUpgrade (el : loc)
  | EvPrototype (el : loc)
  | EvMarked (el : loc)
  | EvReady (el : loc) (f : fid) (arg : value) (pre : world)
  | EvInserted (el : loc) (f : fid) (arg : value) (pre : world)
  | EvQuery (root : option loc) (selector : string).

Definition M (A : Type) : Type := world → list event * outcome A.

Definition mret {A} (a : A) : M A := λ w, ([], Ret a w).

Definition mbind {A B} (m : M A) (k : A → M B) : M B := λ w,
  match m w with
  | (l, Ret a w') => ((l ++ (k a w').1)%list, (k a w').2)
  | (l, Throw e w') => (l, Throw e w')
  end.

Definition throw {A} (e : exn) : M A := λ w, ([], Throw e w).
Definition emit (e : event) : M unit := λ w, ([e], Ret tt w).
Definition lift {A} (f : world → outcome A) : M A := λ w, ([], f w).
Definition read {A} (f : world → A) : M A := λ w, ([], Ret (f w) w).
Definition modify (f : world → world) : M unit := λ w, ([], Ret tt (f w)).

Declare Scope js_scope.
Delimit Scope js_scope with js.
Notation "x <- m ;; k" := (mbind m (λ x, k))
  (at level 100, m at next level, right associativity) : js_scope.
Notation "m ;; k" := (mbind m (λ _, k))
  (at level 100, right associativity) : js_scope.

Definition log_of {A} (r : list event * outcome A) : list event := r.1.
Definition result_of {A} (r : list event * outcome A) : outcome A := r.2.
Definition final {A} (r : list event * outcome A) : world := world_of r.2.

Definition is_inserted (e : event) : bool :=
  match e with EvInserted _ _ _ _ => true | _ => false end.

(** How often a kind of event occurs in a log. *)
Definition count (p : event → bool) (l : list event) : nat :=
  length (List.filter p l).

(** ** The table of element interfaces *)

(** [var tags = { HTMLAnchorElement: 'a', ... }] *)
Definition tags : list (string * string) :=
  [ ("HTMLAnchorElement", "a"); ("HTMLAppletElement", "applet");
    ("HTMLAreaElement", "area"); ("HTMLAudioElement", "audio");
    ("HTMLBaseElement", "base"); ("HTMLBRElement", "br");
    ("HTMLButtonElement", "button"); ("HTMLCanvasElement", "canvas");
    ("HTMLDataElement", "data"); ("HTMLDataListElement", "datalist");
    ("HTMLDivElement", "div"); ("HTMLDListElement", "dl");
    ("HTMLDirectoryElement", "directory"); ("HTMLEmbedElement", "embed");
    ("HTMLFieldSetElement", "fieldset"); ("HTMLFontElement", "font");
    ("HTMLFormElement", "form"); ("HTMLHeadElement", "head");
    ("HTMLHeadingElement", "h1"); ("HTMLHtmlElement", "html");
    ("HTMLHRElement", "hr"); ("HTMLIFrameElement", "iframe");
    ("HTMLImageElement", "img"); ("HTMLInputElement", "input");
    ("HTMLKeygenElement", "keygen"); ("HTMLLabelElement", "label");
    ("HTMLLegendElement", "legend"); ("HTMLLIElement", "li");
    ("HTMLLinkElement", "link"); ("HTMLMapElement", "map");
    ("HTMLMediaElement", "media"); ("HTMLMenuElement", "menu");
    ("HTMLMetaElement", "meta"); ("HTMLMeterElement", "meter");
    ("HTMLModElement", "ins"); ("HTMLObjectElement", "object");
    ("HTMLOListElement", "ol"); ("HTMLOptGroupElement", "optgroup");
    ("HTMLOptionElement", "option"); ("HTMLOutputElement", "output");
    ("HTMLParagraphElement", "p"); ("HTMLParamElement", "param");
    ("HTMLPreElement", "pre"); ("HTMLProgressElement", "progress");
    ("HTMLQuoteElement", "quote"); ("HTMLScriptElement", "script");
    ("HTMLSelectElement", "select"); ("HTMLSourceElement", "source");
    ("HTMLSpanElement", "span"); ("HTMLStyleElement", "style");
    ("HTMLTableElement", "table"); ("HTMLTableCaptionElement", "caption");
    ("HTMLTableDataCellElement", "td"); ("HTMLTableHeaderCellElement", "th");
    ("HTMLTableColElement", "col"); ("HTMLTableRowElement", "tr");
    ("HTMLTableSectionElement", "tbody"); ("HTMLTextAreaElement", "textarea");
    ("HTMLTimeElement", "time"); ("HTMLTitleElement", "title");
    ("HTMLTrackElement", "track"); ("HTMLUListElement", "ul");
    ("HTMLUnknownElement", "blink"); ("HTMLVideoElement", "video") ].

(** [tags[name]]; the members every object inherits from [Object.prototype]
    are not part of the table. *)
Fixpoint assoc (name : string) (l : list (string * string)) : option string :=
  match l with
  | [] => None
  | (k, v) :: r => if String.eqb k name then Some v else assoc name r
  end.

(** What [register] returns: the constructor made by the host, or the
    closure [function(){ return createElement(tag); }]. *)
Inductive constructor :=
  | NativeCtor (v : value)
  | Factory (tag : string).

Definition dquote : string := String (ascii_of_nat 34) EmptyString.

Definition set_registry (w : world) (tag : string) (config : widget) : world :=
  World (w_props w) (w_proto w) (w_dom w) (w_code w)
        (<[tag := config]> (w_registry w)) (w_selectors w).

(** [selectors.push(s)] *)
Definition push_selector (w : world) (s : string) : world :=
  World (w_props w) (w_proto w) (w_dom w) (w_code w)
        (w_registry w) (w_selectors w ++ [s])%list.

(** Whether [target] is on the prototype chain of [l]. *)
Fixpoint proto_reaches (fuel : nat) (w : world) (l target : loc) : bool :=
  match fuel with
  | O => false
  | S n =>
      match w_proto w !! l with
      | Some p => bool_decide (p = target) || proto_reaches n w p target
      | None => false
      end
  end.

(** [v instanceof F] for a function [F] whose [prototype] is an object. *)
Definition instanceof (w : world) (v : value) (F : loc) : bool :=
  match v, Get w F "prototype" with
  | VRef l, VRef fp => proto_reaches (size (w_proto w)) w l fp
  | _, _ => false
  end.

(** [x && x.prototype && x.prototype[k]] *)
Definition prototype_field (w : world) (x : value) (k : string) : value :=
  if truthy x then
    match member w x "prototype" with
    | Some p => if truthy p then default VUndef (member w p k) else p
    | None => VUndef
    end
  else x.

(** What [registry[key]] evaluates to: an entry that [register] wrote, or
    else whatever the plain object [registry] inherits under that name. *)
Inductive registered :=
  | Config (config : widget)
  | Member (v : value).

(** The value of the descriptor object [d], for a data descriptor. *)
Definition descriptor_value (w : world) (d : value) : option value :=
  match d with
  | VRef l => Some (Get w l "value")
  | _ => None
  end.

(** The properties that [Object.defineProperties(obj, props)] defines,
    for an arbitrary value [props]; [None] stands for its [TypeError]:
    [props] is [undefined] or [null], or one of its properties is not a
    descriptor object.  Primitive values have no properties but the
    characters of a string. *)
Definition descriptors_of (w : world) (props : value) : option (gmap string value) :=
  match props with
  | VUndef | VNull => None
  | VRef l =>
      if decide (map_Forall (λ _ d, is_Some (descriptor_value w d)) (own w l))
      then Some (omap (descriptor_value w) (own w l))
      else None
  | VStr s => if bool_decide (s = EmptyString) then Some ∅ else None
  | _ => Some ∅
  end.

(** ** Sample stores and application code *)

(** A widget [this] at 1 whose property [focusNode] is the element at 2. *)
Definition sample_with_node : world :=
  World {[ 1%positive := {[ "focusNode" := VRef 2%positive ]} ]} ∅
        {[ 2%positive := Element "SPAN" ∅ false ]} ∅ ∅ [].

(** A widget [this] at 1 with no properties at all. *)
Definition sample_bare : world :=
  World {[ 1%positive := ∅ ]} ∅ ∅ ∅ ∅ [].

(** Application code: 1 is a [readyCallback] that sets [this.ready], 2 an
    [insertedCallback] that sets [this.inserted], 3 a callback that throws. *)
Definition sample_call (f : fid) (this : loc) (args : list value) (w : world)
    : outcome value :=
  match f with
  | 1%positive => Ret VUndef (set_own w this "ready" (VBool true))
  | 2%positive => Ret VUndef (set_own w this "inserted" (VBool true))
  | 3%positive => Throw (UserError (VStr "boom")) w
  | _ => Ret VUndef w
  end.

(** Objects 10 and 20 are widget prototypes, 11, 12 and 21 the functions
    they hold; 100 to 105 are [HTMLElement], [HTMLButtonElement] and
    [Object], each with its prototype: 105 is [Object.prototype], of whose
    members the store has [constructor].
    Elements 1 to 6 are [<pd-button>], [<button is=pd-toggle>], [<div>],
    [<pd-broken>], [<button is=PD-TOGGLE>] and a [<pd-button>] whose [is]
    attribute is the empty string. *)
Definition sample_page : world :=
  World
    {[ 10%positive := {[ "readyCallback" := VRef 11%positive;
                         "insertedCallback" := VRef 12%positive ]};
       20%positive := {[ "readyCallback" := VRef 21%positive;
                         "insertedCallback" := VRef 12%positive ]};
       100%positive := {[ "prototype" := VRef 101%positive;
                          "name" := VStr "HTMLElement" ]};
       102%positive := {[ "prototype" := VRef 103%positive;
                          "name" := VStr "HTMLButtonElement" ]};
       104%positive := {[ "prototype" := VRef 105%positive;
                          "name" := VStr "Object" ]};
       105%positive := {[ "constructor" := VRef 104%positive ]} ]}
    {[ 103%positive := 101%positive ]}
    {[ 1%positive := Element "PD-BUTTON" ∅ true;
       2%positive := Element "BUTTON" {[ "is" := "pd-toggle" ]} false;
       3%positive := Element "DIV" ∅ true;
       4%positive := Element "PD-BROKEN" ∅ true;
       5%positive := Element "BUTTON" {[ "is" := "PD-TOGGLE" ]} true;
       6%positive := Element "PD-BUTTON" {[ "is" := EmptyString ]} false ]}
    {[ 11%positive := 1%positive; 12%positive := 2%positive;
       21%positive := 3%positive ]}
    {[ "pd-button" := Widget 10%positive None None;
       "pd-toggle" := Widget 10%positive (Some "button") None;
       "pd-broken" := Widget 20%positive None None ]}
    [ "pd-button"; "button[is=" ++ dquote ++ "pd-toggle" ++ dquote ++ "]";
      "pd-broken" ].

(** The document answers every query with the elements 1 and 2. *)
Definition sample_query (root : option loc) (selector : string) (w : world)
    : outcome (list loc) :=
  Ret [1%positive; 2%positive] w.

(** [compose] makes the constructor 30 with the prototype 31. *)
Definition sample_compose (bases : list value) (w : world) : outcome value :=
  Ret (VRef 30%positive)
      (set_own w 30%positive "prototype" (VRef 31%positive)).

Definition sample_doc_register (tag : string) (config : widget) (w : world)
    : outcome value :=
  Ret VUndef w.

Definition sample_toString_name (base : value) (w : world) : option string :=
  None.

(** A getter that counts up from the shadow value and a setter that
    doubles what it is given. *)
Definition sample_getter (this : loc) (name : string) (last : value) (w : world)
    : outcome value :=
  Ret (match last with VNum n => VNum (n + 1) | _ => VNum 1 end) w.

Definition sample_setter (this : loc) (name : string) (v : value) (w : world)
    : outcome value :=
  Ret (match v with VNum n => VNum (2 * n) | _ => v end) w.

(** The sample page with one more widget, [pd-plain], whose prototype 40
    has no callbacks, and its element 7. *)
Definition sample_plain_page : world :=
  set_registry (set_element sample_page 7%positive (Element "PD-PLAIN" ∅ true))
    "pd-plain" (Widget 40%positive None (Some {[ "label" := VStr "plain" ]})).

(** The sample page with one more constructor, 106: its prototype 107
    descends from [HTMLElement]'s, and it is called [Foo]. *)
Definition sample_foo_page : world :=
  set_proto
    (set_own (set_own sample_page 106%positive "prototype" (VRef 107%positive))
       106%positive "name" (VStr "Foo"))
    107%positive 101%positive.

(** The same with a constructor that is called [constructor]. *)
Definition sample_ctor_page : world :=
  set_own sample_foo_page 106%positive "name" (VStr "constructor").

(** The sample page with the element 8, [<div is=constructor>]. *)
Definition sample_object_page : world :=
  set_element sample_page 8%positive
    (Element "DIV" {[ "is" := "constructor" ]} false).

(** [Object.prototype] of the sample stores, and how their objects show as
    strings. *)
Definition sample_Object_prototype : loc := 105%positive.

Definition sample_object_toString (l : loc) (w : world) : string :=
  match Get w l "name" with
  | VStr name => "function " ++ name ++ "() { [native code] }"
  | _ => "[object Object]"
  end.

(** The document answers with the elements 1, 4 and 2. *)
Definition sample_query_broken (root : option loc) (selector : string) (w : world)
    : outcome (list loc) :=
  Ret [1%positive; 4%positive; 2%positive] w.

(** The host makes every element at 50, named as asked. *)
Definition sample_createElement (name : string) (w : world) : outcome loc :=
  Ret 50%positive (set_element w 50%positive (Element name ∅ false)).

(** A getter that hands back the shadow value. *)
Definition sample_echo (this : loc) (name : string) (last : value) (w : world)
    : outcome value :=
  Ret last w.

(** ** The module, over its collaborators *)

Section Widgets.

(** [has("document-register")] and [has("__proto__")], resolved once. *)
Variable has_document_register : bool.
Variable has_proto : bool.

(** Application code: [call f this args] runs the function body [f]. *)
Variable call : fid → loc → list value → world → outcome value.

(** [(root || doc).querySelectorAll(selector)]; [None] is the document. *)
Variable querySelectorAll : option loc → string → world → outcome (list loc).

(** [doc.createElement(name)] and [doc.register(tag, config)]. *)
Variable doc_createElement : string → world → outcome loc.
Variable doc_register : string → widget → world → outcome value.

(** [compose.apply(null, bases)]: the composited constructor. *)
Variable compose : list value → world → outcome value.

(** The global [HTMLElement]. *)
Variable HTMLElement : loc.

(** The name that the pattern
    [/^(?:function\s(\S+)\(\)\s|\[\S+\s(\S+)\])/] captures in
    [base.toString()], if it matches. *)
Variable toString_name : value → world → option string.

(** The object [Object.prototype], from which the plain objects [registry]
    and [tags] inherit. *)
Variable Object_prototype : loc.

(** [String(obj)] for an object, which is up to the object; for a function
    it is its source text. *)
Variable object_toString : loc → world → string.

Local Open Scope js_scope.

(** [String(v)], as string concatenation and the host apply it. *)
Definition to_string (w : world) (v : value) : string :=
  match v with
  | VRef l => object_toString l w
  | _ => ToString v
  end.

(** [tag in registry] *)
Definition in_registry (w : world) (tag : string) : bool :=
  bool_decide (is_Some (w_registry w !! tag)) || Has w Object_prototype tag.

(** [registry[key]] *)
Definition registry_get (w : world) (key : string) : registered :=
  match w_registry w !! key with
  | Some config => Config config
  | None => Member (Get w Object_prototype key)
  end.

(** [if (widget)] *)
Definition found (widget : registered) : bool :=
  match widget with
  | Config _ => true
  | Member v => truthy v
  end.

(** [widget.prototype] *)
Definition prototype_of (widget : registered) (w : world) : value :=
  match widget with
  | Config config => VRef (wg_prototype config)
  | Member v => default VUndef (member w v "prototype")
  end.

(** What [Object.defineProperties(element, widget._prototype)] defines. *)
Definition snapshot_of (widget : registered) (w : world)
    : option (gmap string value) :=
  match widget with
  | Config config => wg__prototype config
  | Member v => descriptors_of w (default VUndef (member w v "_prototype"))
  end.

(** [widget.extends], when it is truthy, as a string. *)
Definition extends_of (widget : registered) (w : world) : option string :=
  match widget with
  | Config config => wg_extends config
  | Member v =>
      let x := default VUndef (member w v "extends") in
      if truthy x then Some (to_string w x) else None
  end.

(** [name in tags] and [tags[name]] *)
Definition in_tags (w : world) (name : string) : bool :=
  bool_decide (is_Some (assoc name tags)) || Has w Object_prototype name.

Definition tags_get (w : world) (name : string) : value :=
  match assoc name tags with
  | Some tag => VStr tag
  | None => Get w Object_prototype name
  end.

(** [fv.call(this, arg)]: only functions can be called. *)
Definition call_callback (mk : fid → value → world → event)
    (fv : value) (this : loc) (arg : value) : M unit := λ w,
  match fv with
  | VRef l =>
      match w_code w !! l with
      | Some f =>
          ([mk f arg w],
           match call f this [arg] w with
           | Ret _ w' => Ret tt w'
           | Throw e w' => Throw e w'
           end)
      | None => ([], Throw NativeTypeError w)
      end
  | _ => ([], Throw NativeTypeError w)
  end.

(** [element.nodeName] *)
Definition nodeName (element : loc) (w : world) : outcome string :=
  match w_dom w !! element with
  | Some e => Ret (e_nodeName e) w
  | None => Throw NativeTypeError w
  end.

(** [doc.documentElement.contains(element)] *)
Definition contains (element : loc) (w : world) : bool :=
  match w_dom w !! element with
  | Some e => e_attached e
  | None => false
  end.

(** [element.getAttribute('is') || element.nodeName.toLowerCase()] *)
Definition upgrade_key (element : loc) : M string :=
  is_attr <- lift (getAttribute (VRef element) "is") ;;
  if truthy is_attr then mret (ToString is_attr)
  else (name <- lift (nodeName element) ;; mret (toLowerCase name)).

(** Converts a plain DOM node of a custom type into a widget.  Does
    nothing if the node has been converted already or does not correspond
    to a widget. *)
Definition upgrade (element : loc) : M unit :=
  emit (EvUpgrade element) ;;
  upgraded <- read (λ w, Get w element "__upgraded__") ;;
  if negb (truthy upgraded) then
    key <- upgrade_key element ;;
    widget <- read (λ w, registry_get w key) ;;
    if found widget then
      (if has_proto then
         (* Easy way to redefine the Element's prototype *)
         prototype <- read (prototype_of widget) ;;
         modify (λ w, assign_proto w element prototype)
       else
         (* Hard way to redefine the Element's prototype, needed by IE *)
         defs <- read (snapshot_of widget) ;;
         match defs with
         | Some defs => modify (λ w, defineProperties w element defs)
         | None => throw NativeTypeError
         end) ;;
      emit (EvPrototype element) ;;
      modify (λ w, set_own w element "__upgraded__" (VBool true)) ;;
      emit (EvMarked element) ;;
      ready <- read (λ w, Get w element "readyCallback") ;;
      (if truthy ready
       then prototype <- read (prototype_of widget) ;;
            call_callback (EvReady element) ready element prototype
       else mret tt) ;;
      inserted <- read (λ w, Get w element "insertedCallback") ;;
      attached <- read (contains element) ;;
      if truthy inserted && attached
      then prototype <- read (prototype_of widget) ;;
           call_callback (EvInserted element) inserted element prototype
      else mret tt
    else mret tt
  else mret tt.

(** Like [document.createElement], but a node for the tag of a widget is
    upgraded. *)
Definition createElement (tag : string) : M loc :=
  base <- read (λ w, if found (registry_get w tag)
                     then extends_of (registry_get w tag) w else None) ;;
  element <- lift (doc_createElement (default tag base)) ;;
  (match base with
   | Some _ => lift (setAttribute (VRef element) "is" (VStr tag))
   | None => mret tt
   end) ;;
  upgrade element ;;
  mret element.

(** The loop [while (node = nodes[idx++]) upgrade(node)] over the static
    list that the query returned. *)
Fixpoint upgrade_each (nodes : list loc) : M unit :=
  match nodes with
  | [] => mret tt
  | node :: rest => upgrade node ;; upgrade_each rest
  end.

(** Looks in the tree under [root] for the nodes that need to be upgraded
    to widgets. *)
Definition parse (root : option loc) : M unit :=
  if has_document_register then mret tt
  else
    selector <- read (λ w, join (w_selectors w)) ;;
    emit (EvQuery root selector) ;;
    nodes <- lift (querySelectorAll root selector) ;;
    upgrade_each nodes.

(** *** register *)

(** The name of the class of a constructor: the [_baseName] of a widget,
    else [Function.name], else what [toString] shows. *)
Definition getBaseName (base : value) (w : world) : outcome value :=
  if truthy (prototype_field w base "_baseName")
  then Ret (prototype_field w base "_baseName") w
  else
    match member w base "name" with
    | None => Throw NativeTypeError w
    | Some n =>
        if truthy base && truthy n then Ret n w
        else Ret (match toString_name base w with
                  | Some s => VStr s
                  | None => VUndef
                  end) w
    end.

(** The original constructor of a widget that is composed again. *)
Definition restore (w : world) (extension : value) : value :=
  if truthy (prototype_field w extension "_ctor")
  then prototype_field w extension "_ctor"
  else extension.

(** Saves the tag in the registry and, with the host or by hand, makes the
    constructor of its elements. *)
Definition getTagConstructor (tag : string) (baseName baseCtor : value)
    (w : world) : outcome constructor :=
  match member w baseCtor "prototype" with
  | Some (VRef proto) =>
      let extends :=
        if negb (strict_eq baseName (VStr "HTMLElement"))
        then (if truthy (tags_get w (ToString baseName))
              then Some (to_string w (tags_get w (ToString baseName)))
              else None)
        else None in
      if has_document_register then
        let config := Widget proto extends None in
        bind (doc_register tag config (set_registry w tag config))
          (λ v w, Ret (NativeCtor v) w)
      else
        let config :=
          Widget proto extends
            (if has_proto then None else Some (own w proto)) in
        Ret (Factory tag)
          (push_selector (set_registry w tag config)
             (match extends with
              | Some e => e ++ "[is=" ++ dquote ++ tag ++ dquote ++ "]"
              | None => tag
              end))
  | _ => Throw NativeTypeError w
  end.

(** [baseElement === HTMLElement || baseElement.prototype instanceof
    HTMLElement]; [None] when reading [baseElement.prototype] throws. *)
Definition has_HTMLElement (baseElement : value) (w : world) : option bool :=
  if bool_decide (baseElement = VRef HTMLElement) then Some true
  else
    match member w baseElement "prototype" with
    | Some p => Some (instanceof w p HTMLElement)
    | None => None
    end.

(** Registers a custom element: [tag] is its name, [baseElement] a
    constructor with [HTMLElement] in its prototype chain, [extensions] what
    is composed into the element's constructor. *)
Definition register (tag : string) (baseElement : value)
    (extensions : list value) (w : world) : outcome constructor :=
  (* Check to see if the custom tag is already registered *)
  if in_registry w tag
  then Throw (DuplicateTagError tag) w
  else
    (* Check to see if baseElement is appropriate *)
    match has_HTMLElement baseElement w with
    | None => Throw NativeTypeError w
    | Some false => Throw InvalidBaseError w
    | Some true =>
        bind (getBaseName baseElement w) (λ baseName w,
          if negb (truthy baseName) then Throw UnresolvableBaseNameError w
          else if negb (strict_eq baseName (VStr "HTMLElement"))
                  && negb (in_tags w (ToString baseName))
          then Throw (UnrecognizedBaseError (ToString baseName)) w
          else
            bind (compose (map (restore w) (baseElement :: extensions)) w)
              (λ ctor w,
                 match member w ctor "prototype" with
                 | Some (VRef p) =>
                     bind (shadow p "ctor" ctor w) (λ _ w,
                     bind (shadow p "baseName" baseName w) (λ _ w,
                       getTagConstructor tag baseName ctor w))
                 | _ => Throw NativeTypeError w
                 end))
    end.

(** ** Notions used in the statements *)

Definition marked (w : world) (element : loc) : bool :=
  truthy (Get w element "__upgraded__").

(** The key [upgrade] looks up, read off the element. *)
Definition resolution_key (e : element) : string :=
  match e_attrs e !! "is" with
  | Some s =>
      if bool_decide (s = EmptyString) then toLowerCase (e_nodeName e) else s
  | None => toLowerCase (e_nodeName e)
  end.

(** The store after the prototype mutation, if it succeeds. *)
Definition prototype_step (element : loc) (widget : widget) (w : world)
    : option world :=
  if has_proto then Some (set_proto w element (wg_prototype widget))
  else defineProperties w element <$> wg__prototype widget.

(** The two lifecycle calls that end [upgrade]; [prototype] reads
    [widget.prototype]. *)
Definition lifecycle (element : loc) (prototype : world → value) : M unit :=
  (ready <- read (λ w, Get w element "readyCallback") ;;
   (if truthy ready
    then p <- read prototype ;;
         call_callback (EvReady element) ready element p
    else mret tt) ;;
   inserted <- read (λ w, Get w element "insertedCallback") ;;
   attached <- read (contains element) ;;
   if truthy inserted && attached
   then p <- read prototype ;;
        call_callback (EvInserted element) inserted element p
   else mret tt)%js.

(** The store after the prototype mutation for whatever [registry[key]]
    gave, if it succeeds. *)
Definition mutation (element : loc) (widget : registered) (w : world)
    : option world :=
  if has_proto then Some (assign_proto w element (prototype_of widget w))
  else defineProperties w element <$> snapshot_of widget w.

(** The application's side of the contract: its code leaves the upgraded
    marker of [element] set. *)
Definition callbacks_keep_marker (element : loc) : Prop :=
  ∀ f this args w,
    marked w element = true → marked (world_of (call f this args w)) element = true.

Definition is_query (ev : event) : bool :=
  match ev with EvQuery _ _ => true | _ => false end.

(** The nodes [upgrade] was called on, in the order of the calls. *)
Definition upgraded_nodes (l : list event) : list loc :=
  omap (λ ev, match ev with EvUpgrade el => Some el | _ => None end) l.

(** Whether the character [c] occurs in [s]. *)
Fixpoint occurs (c : ascii) (s : string) : bool :=
  match s with
  | EmptyString => false
  | String d r => Ascii.eqb c d || occurs c r
  end.

(** Whether [s] has no dash that a lower-case letter follows, which is
    what the pattern [/-([a-z])/] looks for. *)
Fixpoint dash_free (s : string) : bool :=
  match s with
  | String c (String d _ as r) =>
      negb (Ascii.eqb c "-"%char && is_lower d) && dash_free r
  | _ => true
  end.

(** ** Facts about the store *)

Lemma own_set_own w l k v l' :
  own (set_own w l k v) l' = if decide (l = l') then <[k := v]> (own w l) else own w l'.
Proof.
  unfold own at 1. simpl. rewrite lookup_insert. by case_decide.
Qed.

Lemma get_prop_ext n w w' l k :
  w_props w' = w_props w → w_proto w' = w_proto w →
  get_prop n w' l k = get_prop n w l k.
Proof.
  intros Hp Hq. revert l.
  induction n as [|n IH]; intros l; simpl; unfold own; rewrite Hp, ?Hq;
    [done|].
  destruct (default ∅ (w_props w !! l) !! k); [done|].
  destruct (w_proto w !! l); [apply IH|done].
Qed.

Lemma Get_ext w w' l k :
  w_props w' = w_props w → w_proto w' = w_proto w → Get w' l k = Get w l k.
Proof.
  intros Hp Hq. unfold Get. rewrite Hq. by rewrite (get_prop_ext _ w w').
Qed.

Lemma get_prop_set_own_eq n w l k v :
  get_prop n (set_own w l k v) l k = Some v.
Proof.
  destruct n; simpl; rewrite own_set_own; case_decide; try done;
    by rewrite lookup_insert_eq.
Qed.

Lemma get_prop_set_own_ne n w l k v l' k' :
  k ≠ k' → get_prop n (set_own w l k v) l' k' = get_prop n w l' k'.
Proof.
  intros Hk. revert l'.
  induction n as [|n IH]; intros l'; simpl; rewrite own_set_own;
    (case_decide as Hl; [subst l'; rewrite lookup_insert_ne by done|]).
  - done.
  - done.
  - destruct (own w l !! k'); [done|].
    destruct (w_proto w !! l); [apply IH|done].
  - destruct (own w l' !! k'); [done|].
    destruct (w_proto w !! l'); [apply IH|done].
Qed.

Lemma Get_set_own_eq w l k v : Get (set_own w l k v) l k = v.
Proof. unfold Get. by rewrite get_prop_set_own_eq. Qed.

Lemma Has_set_own_eq w l k v : Has (set_own w l k v) l k = true.
Proof.
  unfold Has. rewrite get_prop_set_own_eq. apply bool_decide_eq_true. eauto.
Qed.

Lemma Get_set_own_ne w l k v l' k' :
  k ≠ k' → Get (set_own w l k v) l' k' = Get w l' k'.
Proof. intros Hk. unfold Get. simpl. by rewrite get_prop_set_own_ne. Qed.

Lemma Get_set_element w l e l' k : Get (set_element w l e) l' k = Get w l' k.
Proof. by apply Get_ext. Qed.

(** A property that reads as something else than [undefined] exists. *)
Lemma Get_defined_Has w l k : Get w l k ≠ VUndef → Has w l k = true.
Proof.
  unfold Get, Has. intros H. apply bool_decide_eq_true.
  destruct (get_prop _ w l k); [eauto|done].
Qed.

Lemma strict_eq_true a b : strict_eq a b = true → a = b.
Proof.
  unfold strict_eq.
  destruct a, b; try discriminate; intros H; by apply bool_decide_eq_true in H.
Qed.

Lemma strict_eq_refl a : a ≠ VNaN → strict_eq a a = true.
Proof.
  intros H. unfold strict_eq. destruct a; try done; by apply bool_decide_eq_true.
Qed.

(** ** The descriptor factories *)

(** C3, as the code has it: with a sub-node present, a non-empty string
    that is set is read back, and setting a falsy value (the empty string
    among them) removes the attribute, after which the property reads as
    [null]. *)
Theorem dom_attribute_round_trip nodeName attributeName enumerable this w n e :
  Get w this nodeName = VRef n →
  w_dom w !! n = Some e →
  let d := getDomAttributeDescriptor nodeName attributeName enumerable in
  (∀ V, V ≠ EmptyString →
     let w1 := set_element w n
                 (Element (e_nodeName e) (<[attributeName := V]> (e_attrs e))
                          (e_attached e)) in
     d_set d this (VStr V) w = Ret tt w1 ∧ d_get d this w1 = Ret (VStr V) w1) ∧
  (∀ v, truthy v = false →
     let w1 := set_element w n
                 (Element (e_nodeName e) (delete attributeName (e_attrs e))
                          (e_attached e)) in
     d_set d this v w = Ret tt w1 ∧
     (∃ e1, w_dom w1 !! n = Some e1 ∧ e_attrs e1 !! attributeName = None) ∧
     d_get d this w1 = Ret VNull w1).
Proof.
  intros Hn He d. split.
  - intros V HV w1. subst d w1. simpl.
    rewrite !Get_set_element, Hn. simpl.
    rewrite bool_decide_eq_false_2 by done. simpl.
    rewrite He, lookup_insert_eq. simpl. by rewrite lookup_insert_eq.
  - intros v Hv w1. subst d w1. simpl.
    rewrite !Get_set_element, Hn. simpl. rewrite Hv, He.
    rewrite lookup_insert_eq. simpl. rewrite lookup_delete_eq.
    split; [done|]. split; [|done].
    eexists. split; [done|]. simpl. apply lookup_delete_eq.
Qed.

(** The six falsy values. *)
Lemma falsy_inv v :
  truthy v = false →
  v = VUndef ∨ v = VNull ∨ v = VBool false ∨ v = VNum 0 ∨ v = VNaN ∨
  v = VStr EmptyString.
Proof.
  destruct v as [| |b|n| |s|l]; simpl; intros H; auto 7; try discriminate.
  - destruct b; [discriminate|auto].
  - apply negb_false_iff, Z.eqb_eq in H. subst. auto 7.
  - apply negb_false_iff, bool_decide_eq_true in H. subst. auto 7.
Qed.

Lemma length_append (a b : string) :
  String.length (a ++ b) = String.length a + String.length b.
Proof. induction a as [|c a IH]; simpl; [done|by rewrite IH]. Qed.

(** The shadow property never is the property that holds the sub-node. *)
Lemma shadow_name_fresh (nodeName c : string) :
  "_" ++ nodeName ++ "_" ++ c ≠ nodeName.
Proof.
  intros H. apply (f_equal String.length) in H.
  rewrite !length_append in H. simpl in H. lia.
Qed.

Lemma Get_not_Has w l k : Has w l k = false → Get w l k = VUndef.
Proof.
  unfold Has, Get. intros H. apply bool_decide_eq_false in H.
  destruct (get_prop _ w l k); [|done]. destruct H. eauto.
Qed.

(** C8, as the code has it: while the sub-node is absent, a value other
    than [undefined] that is set is read back from the shadow property;
    so is [undefined] when the shadow property exists already.  Setting
    [undefined] on a widget without the shadow property stores nothing,
    and the property then reads as [null]. *)
Theorem shadow_attribute_persists nodeName attributeName enumerable this w v :
  truthy (Get w this nodeName) = false →
  let d := getShadowDomAttributeDescriptor nodeName attributeName enumerable in
  let sp := "_" ++ nodeName ++ "_" ++ toCamelCase attributeName in
  (v ≠ VUndef ∨ Has w this sp = true →
     ∃ w1, d_set d this v w = Ret tt w1 ∧
           truthy (Get w1 this nodeName) = false ∧
           d_get d this w1 = Ret v w1) ∧
  (v = VUndef → Has w this sp = false →
     d_set d this v w = Ret tt w ∧
     d_get d this w = Ret VNull (set_own w this sp VNull)).
Proof.
  intros Hnode d sp0. subst d sp0.
  cbn [d_set d_get getShadowDomAttributeDescriptor].
  set (sn := nodeName ++ "_" ++ toCamelCase attributeName).
  set (sp := "_" ++ sn).
  assert (Hfresh : sp ≠ nodeName) by apply shadow_name_fresh.
  split.
  2: { intros -> Hh. rewrite (Get_not_Has _ _ _ Hh), Hnode. unfold js_or.
       cbn [truthy bind]. rewrite (strict_eq_refl VUndef) by done.
       cbn [negb bind]. rewrite Hnode. split; [done|].
       rewrite (Get_not_Has _ _ _ Hh), Hh. reflexivity. }
  intros Hv.
  destruct (strict_eq v (Get w this sp)) eqn:E; cbn [negb bind shadow].
  - (* the shadow property holds [v] already *)
    exists w. rewrite Hnode. split; [done|]. split; [done|].
    apply strict_eq_true in E.
    assert (HHas : v ≠ VUndef → Has w this sp = true).
    { intros Hd. apply Get_defined_Has. congruence. }
    rewrite <- E. unfold js_or.
    destruct (truthy v) eqn:Ht; cbn [bind]; rewrite <- E.
    + rewrite strict_eq_refl; [done|]. by destruct v.
    + destruct (falsy_inv v Ht) as [-> | [-> | [-> | [-> | [-> | ->]]]]]; cbn;
        try done; try (by rewrite HHas).
      destruct Hv as [?|Hv]; [done|]. fold sn sp in Hv. by rewrite Hv.
  - (* the shadow property is written *)
    exists (set_own w this sp v).
    rewrite !Get_set_own_ne by done. rewrite Hnode.
    split; [done|]. split; [done|].
    rewrite !Get_set_own_eq. unfold js_or.
    destruct (truthy v) eqn:Ht; cbn [bind]; rewrite !Get_set_own_eq.
    + rewrite strict_eq_refl; [done|]. by destruct v.
    + rewrite Has_set_own_eq.
      by destruct (falsy_inv v Ht) as [-> | [-> | [-> | [-> | [-> | ->]]]]].
Qed.

(** C7: [get] hands the getter the property name and the shadow value,
    and writes the shadow property only when the result differs from what
    the shadow property then reads as; [set] hands the setter the name and
    the new value and always writes what the setter returned. *)
Theorem calculated_descriptor_shadowing name getter setter enumerable this w :
  let d := getShadowCalculatedDescriptor name getter setter enumerable in
  let shadowName := "_" ++ name in
  d_get d this w =
    match getter this name (Get w this shadowName) w with
    | Ret v w' =>
        Ret v (if strict_eq v (Get w' this shadowName) then w'
               else set_own w' this shadowName v)
    | Throw e w' => Throw e w'
    end ∧
  (∀ x, d_set d this x w =
    match setter this name x w with
    | Ret v w' => Ret tt (set_own w' this shadowName v)
    | Throw e w' => Throw e w'
    end) ∧
  (∀ x v w', setter this name x w = Ret v w' →
     Get (world_of (d_set d this x w)) this shadowName = v ∧
     Has (world_of (d_set d this x w)) this shadowName = true).
Proof.
  intros d shadowName. subst d. cbn [d_get d_set getShadowCalculatedDescriptor].
  fold shadowName. split; [|split].
  - destruct (getter this name (Get w this shadowName) w) as [v w'|e w'];
      cbn [bind]; [|done].
    by destruct (strict_eq v (Get w' this shadowName)).
  - intros x. by destruct (setter this name x w).
  - intros x v w' Hs. rewrite Hs. cbn [bind shadow world_of].
    fold shadowName. by rewrite Get_set_own_eq, Has_set_own_eq.
Qed.

(** C9: setting a delegating property while the delegate is absent (reads
    as a falsy value) throws the undefined-delegate error and leaves the
    store, hence [this], as it was. *)
Theorem delegate_set_without_delegate
    delegateName propertyName enumerable this v w :
  truthy (Get w this delegateName) = false →
  let d := getDelegateDescriptor delegateName propertyName enumerable in
  d_set d this v w = Throw (UndefinedDelegateError propertyName) w ∧
  Get (world_of (d_set d this v w)) this delegateName = Get w this delegateName ∧
  own (world_of (d_set d this v w)) this = own w this.
Proof.
  intros H d. subst d. cbn [d_set getDelegateDescriptor]. by rewrite H.
Qed.

(** ** upgrade *)

Lemma bind_emit {B} ev (k : unit → M B) w :
  mbind (emit ev) k w = (ev :: (k tt w).1, (k tt w).2).
Proof. reflexivity. Qed.

Lemma bind_returns {A B} (m : M A) (k : A → M B) w a w' :
  m w = ([], Ret a w') → mbind m k w = k a w'.
Proof. intros H. unfold mbind. rewrite H. by destruct (k a w'). Qed.

Lemma bind_throws {A B} (m : M A) (k : A → M B) w l e w' :
  m w = (l, Throw e w') → mbind m k w = (l, Throw e w').
Proof. intros H. unfold mbind. by rewrite H. Qed.

Lemma bind_read {A B} (f : world → A) (k : A → M B) w :
  mbind (read f) k w = k (f w) w.
Proof. by apply bind_returns. Qed.

Lemma bind_modify {B} (f : world → world) (k : unit → M B) w :
  mbind (modify f) k w = k tt (f w).
Proof. by apply bind_returns. Qed.

Lemma bind_mret {A B} (a : A) (k : A → M B) w : mbind (mret a) k w = k a w.
Proof. by apply bind_returns. Qed.

Lemma upgrade_marked element w :
  marked w element = true → upgrade element w = ([EvUpgrade element], Ret tt w).
Proof.
  unfold marked. intros H. unfold upgrade.
  rewrite bind_emit, bind_read, H. reflexivity.
Qed.

Lemma upgrade_key_spec element e w :
  w_dom w !! element = Some e →
  upgrade_key element w = ([], Ret (resolution_key e) w).
Proof.
  intros H. unfold upgrade_key, resolution_key.
  erewrite bind_returns; last by (unfold lift, getAttribute; rewrite H).
  destruct (e_attrs e !! "is") as [s|]; cbn [truthy].
  - case_bool_decide; cbn [negb]; [|done].
    erewrite bind_returns; [done|]. unfold lift, nodeName. by rewrite H.
  - erewrite bind_returns; [done|]. unfold lift, nodeName. by rewrite H.
Qed.

Lemma upgrade_unfold element e w :
  marked w element = false →
  w_dom w !! element = Some e →
  upgrade element w =
    let widget := registry_get w (resolution_key e) in
    if found widget then
      match mutation element widget w with
      | None => ([EvUpgrade element], Throw NativeTypeError w)
      | Some w1 =>
          let r := lifecycle element (prototype_of widget)
                     (set_own w1 element "__upgraded__" (VBool true)) in
          (EvUpgrade element :: EvPrototype element :: EvMarked element :: r.1,
           r.2)
      end
    else ([EvUpgrade element], Ret tt w).
Proof.
  unfold marked. intros Hm He. unfold upgrade.
  rewrite bind_emit, bind_read, Hm. cbn [negb].
  rewrite (bind_returns _ _ _ _ _ (upgrade_key_spec _ _ _ He)), bind_read.
  cbn zeta. set (widget := registry_get w (resolution_key e)).
  destruct (found widget); [|done].
  assert (Hstep :
    (if has_proto
     then mbind (read (prototype_of widget))
            (λ prototype, modify (λ w, assign_proto w element prototype))
     else mbind (read (snapshot_of widget))
            (λ defs, match defs with
                     | Some defs => modify (λ w, defineProperties w element defs)
                     | None => throw NativeTypeError
                     end)) w =
    match mutation element widget w with
    | Some w1 => ([], Ret tt w1)
    | None => ([], Throw NativeTypeError w)
    end).
  { unfold mutation. destruct has_proto; rewrite bind_read; [done|].
    by destruct (snapshot_of widget w). }
  destruct (mutation element widget w) as [w1|].
  - rewrite (bind_returns _ _ _ _ _ Hstep).
    by rewrite bind_emit, bind_modify, bind_emit.
  - by rewrite (bind_throws _ _ _ _ _ _ Hstep).
Qed.

(** The same for an entry that [register] wrote. *)
Lemma upgrade_own element e widget w :
  marked w element = false →
  w_dom w !! element = Some e →
  w_registry w !! resolution_key e = Some widget →
  upgrade element w =
    match prototype_step element widget w with
    | None => ([EvUpgrade element], Throw NativeTypeError w)
    | Some w1 =>
        let r := lifecycle element (λ _, VRef (wg_prototype widget))
                   (set_own w1 element "__upgraded__" (VBool true)) in
        (EvUpgrade element :: EvPrototype element :: EvMarked element :: r.1,
         r.2)
    end.
Proof.
  intros Hm He Hr. rewrite (upgrade_unfold _ _ _ Hm He).
  unfold registry_get. rewrite Hr. done.
Qed.

(** What is neither registered nor inherited is not upgraded. *)
Lemma upgrade_unknown element e w :
  marked w element = false →
  w_dom w !! element = Some e →
  found (registry_get w (resolution_key e)) = false →
  upgrade element w = ([EvUpgrade element], Ret tt w).
Proof. intros Hm He Hf. rewrite (upgrade_unfold _ _ _ Hm He). cbn zeta. by rewrite Hf. Qed.

Lemma upgrade_not_element element w :
  marked w element = false →
  w_dom w !! element = None →
  upgrade element w = ([EvUpgrade element], Throw NativeTypeError w).
Proof.
  unfold marked. intros Hm He. unfold upgrade.
  rewrite bind_emit, bind_read, Hm. cbn [negb].
  erewrite bind_throws; [done|].
  unfold upgrade_key. erewrite bind_throws; [done|].
  unfold lift, getAttribute. by rewrite He.
Qed.

Lemma lifecycle_unfold element prototype w :
  lifecycle element prototype w =
    let ready := Get w element "readyCallback" in
    let r1 := if truthy ready
              then call_callback (EvReady element) ready element (prototype w) w
              else ([], Ret tt w) in
    match r1.2 with
    | Ret _ w3 =>
        let inserted := Get w3 element "insertedCallback" in
        let r2 := if truthy inserted && contains element w3
                  then call_callback (EvInserted element) inserted element
                         (prototype w3) w3
                  else ([], Ret tt w3) in
        ((r1.1 ++ r2.1)%list, r2.2)
    | Throw e w3 => (r1.1, Throw e w3)
    end.
Proof.
  assert (Hcall : ∀ mk fv w0,
    mbind (read prototype) (λ p, call_callback mk fv element p) w0 =
      call_callback mk fv element (prototype w0) w0) by (intros; apply bind_read).
  unfold lifecycle. rewrite bind_read. cbn zeta.
  unfold mbind at 1.
  destruct (truthy (Get w element "readyCallback")).
  - rewrite Hcall.
    destruct (call_callback _ _ _ _ w) as [l [[] w3|e w3]]; cbn [fst snd]; [|done].
    rewrite !bind_read.
    destruct (truthy (Get w3 element "insertedCallback") && contains element w3);
      [by rewrite Hcall|done].
  - unfold mret at 1. cbn [fst snd]. rewrite !bind_read.
    destruct (truthy (Get w element "insertedCallback") && contains element w);
      [by rewrite Hcall|done].
Qed.

(** What a call of a callback logs and leaves behind. *)
Lemma call_callback_inv mk fv this arg w :
  (∃ l f, fv = VRef l ∧ w_code w !! l = Some f ∧
          (call_callback mk fv this arg w).1 = [mk f arg w] ∧
          final (call_callback mk fv this arg w) = world_of (call f this [arg] w)) ∨
  call_callback mk fv this arg w = ([], Throw NativeTypeError w).
Proof.
  unfold call_callback, final.
  destruct fv as [| | | | | |l]; auto.
  destruct (w_code w !! l) as [f|] eqn:Hf; auto.
  left. exists l, f. cbn [fst snd]. repeat split; try done.
  by destruct (call f this [arg] w).
Qed.



Lemma count_app p l1 l2 : count p (l1 ++ l2)%list = count p l1 + count p l2.
Proof. unfold count. by rewrite List.filter_app, length_app. Qed.








Lemma call_callback_returns mk fv this arg w l0 w' :
  call_callback mk fv this arg w = (l0, Ret tt w') →
  ∃ l f v, fv = VRef l ∧ w_code w !! l = Some f ∧ l0 = [mk f arg w] ∧
           call f this [arg] w = Ret v w'.
Proof.
  unfold call_callback.
  destruct fv as [| | | | | |l]; try discriminate.
  destruct (w_code w !! l) as [f|] eqn:Hf; [|discriminate].
  destruct (call f this [arg] w) as [v w3|ex w3] eqn:Hc; [|discriminate].
  intros [= <- <-]. by exists l, f, v.
Qed.

(** C4: a successful [upgrade] of a matching node that is not upgraded
    yet mutates the prototype, then sets the marker, then runs
    [readyCallback] if the node has one, then runs [insertedCallback] if
    the node has one and is in the document.  [readyCallback] starts on
    the store [w2] in which the node is marked; [insertedCallback] starts
    on the store [w3] that [readyCallback] left. *)
Theorem upgrade_order element e widget w w' :
  marked w element = false →
  w_dom w !! element = Some e →
  w_registry w !! resolution_key e = Some widget →
  result_of (upgrade element w) = Ret tt w' →
  ∃ w1 ready_log w3 inserted_log,
    prototype_step element widget w = Some w1 ∧
    let w2 := set_own w1 element "__upgraded__" (VBool true) in
    let prototype := VRef (wg_prototype widget) in
    log_of (upgrade element w) =
      ([EvUpgrade element; EvPrototype element; EvMarked element]
         ++ ready_log ++ inserted_log)%list ∧
    Get w2 element "__upgraded__" = VBool true ∧
    (truthy (Get w2 element "readyCallback") = false ∧
       ready_log = [] ∧ w3 = w2
     ∨ ∃ l f v,
         Get w2 element "readyCallback" = VRef l ∧ w_code w2 !! l = Some f ∧
         ready_log = [EvReady element f prototype w2] ∧
         call f element [prototype] w2 = Ret v w3) ∧
    (truthy (Get w3 element "insertedCallback") && contains element w3 = false ∧
       inserted_log = [] ∧ w' = w3
     ∨ ∃ l g v,
         Get w3 element "insertedCallback" = VRef l ∧
         contains element w3 = true ∧ w_code w3 !! l = Some g ∧
         inserted_log = [EvInserted element g prototype w3] ∧
         call g element [prototype] w3 = Ret v w') ∧
    (callbacks_keep_marker element → marked w3 element = true).
Proof.
  intros Hm He Hr. unfold result_of, log_of.
  rewrite (upgrade_own _ _ _ _ Hm He Hr).
  destruct (prototype_step element widget w) as [w1|]; [|discriminate].
  cbn zeta. cbn [fst snd]. rewrite lifecycle_unfold. cbn beta zeta.
  set (w2 := set_own w1 element "__upgraded__" (VBool true)).
  set (P := VRef (wg_prototype widget)).
  assert (Hm2 : Get w2 element "__upgraded__" = VBool true)
    by apply Get_set_own_eq.
  intros Hres.
  assert (Hready : ∃ ready_log w3,
    (if truthy (Get w2 element "readyCallback")
     then call_callback (EvReady element) (Get w2 element "readyCallback") element P w2
     else ([], Ret tt w2)) = (ready_log, Ret tt w3) ∧
    (truthy (Get w2 element "readyCallback") = false ∧ ready_log = [] ∧ w3 = w2
     ∨ ∃ l f v,
         Get w2 element "readyCallback" = VRef l ∧ w_code w2 !! l = Some f ∧
         ready_log = [EvReady element f P w2] ∧
         call f element [P] w2 = Ret v w3)).
  { destruct (truthy (Get w2 element "readyCallback")) eqn:Ht.
    - destruct (call_callback _ _ _ _ w2) as [l1 [[] w3|ex w3]] eqn:Hc;
        [|discriminate].
      exists l1, w3. split; [done|]. right.
      by apply call_callback_returns in Hc.
    - exists [], w2. auto. }
  destruct Hready as (ready_log & w3 & Heq & Hready).
  rewrite Heq in Hres |- *. cbn [fst snd] in *.
  assert (Hins : ∃ inserted_log,
    (if truthy (Get w3 element "insertedCallback") && contains element w3
     then call_callback (EvInserted element) (Get w3 element "insertedCallback")
            element P w3
     else ([], Ret tt w3)) = (inserted_log, Ret tt w') ∧
    (truthy (Get w3 element "insertedCallback") && contains element w3 = false ∧
       inserted_log = [] ∧ w' = w3
     ∨ ∃ l g v,
         Get w3 element "insertedCallback" = VRef l ∧
         contains element w3 = true ∧ w_code w3 !! l = Some g ∧
         inserted_log = [EvInserted element g P w3] ∧
         call g element [P] w3 = Ret v w')).
  { destruct (truthy (Get w3 element "insertedCallback") && contains element w3)
      eqn:Ht.
    - destruct (call_callback _ _ _ _ w3) as [l2 [[] w4|ex w4]] eqn:Hc;
        cbn [snd] in Hres; [|discriminate].
      injection Hres as ->.
      exists l2. split; [done|]. right.
      apply andb_true_iff in Ht as [_ Hat].
      apply call_callback_returns in Hc as (l & g & v & ? & ? & ? & ?).
      by exists l, g, v.
    - cbn [snd] in Hres. injection Hres as ->. exists []. auto. }
  destruct Hins as (inserted_log & Heq2 & Hins).
  rewrite Heq2. cbn [fst snd].
  exists w1, ready_log, w3, inserted_log.
  split; [done|]. split; [done|]. split; [done|]. split; [done|].
  split; [done|].
  intros Hk. destruct Hready as [(_ & _ & ->)|(l & f & v & _ & _ & _ & Hc)].
  - unfold marked. by rewrite Hm2.
  - assert (Hm3 := Hk f element [P] w2). rewrite Hc in Hm3. apply Hm3.
    unfold marked. by rewrite Hm2.
Qed.

(** C10: when [readyCallback] throws, the node has its new prototype and
    its marker already; [upgrade] ends with that exception on the store
    the callback left, [insertedCallback] is not called, and a later
    [upgrade] of the node, which is still marked unless application code
    cleared the marker, does nothing. *)
Theorem upgrade_ready_throws element e widget w w1 l f ex w3 :
  marked w element = false →
  w_dom w !! element = Some e →
  w_registry w !! resolution_key e = Some widget →
  prototype_step element widget w = Some w1 →
  let w2 := set_own w1 element "__upgraded__" (VBool true) in
  let prototype := VRef (wg_prototype widget) in
  Get w2 element "readyCallback" = VRef l →
  w_code w2 !! l = Some f →
  call f element [prototype] w2 = Throw ex w3 →
  upgrade element w =
    ([EvUpgrade element; EvPrototype element; EvMarked element;
      EvReady element f prototype w2], Throw ex w3) ∧
  Get w2 element "__upgraded__" = VBool true ∧
  (has_proto = true → w_proto w2 !! element = Some (wg_prototype widget)) ∧
  (has_proto = false → ∃ defs, wg__prototype widget = Some defs ∧
     ∀ k v, defs !! k = Some v → k ≠ "__upgraded__" →
            own w2 element !! k = Some v) ∧
  count is_inserted (log_of (upgrade element w)) = 0 ∧
  (callbacks_keep_marker element → marked w3 element = true) ∧
  (∀ later, marked later element = true →
     upgrade element later = ([EvUpgrade element], Ret tt later)).
Proof.
  intros Hm He Hr Hp w2 P Hready Hf Hc.
  assert (Hm2 : Get w2 element "__upgraded__" = VBool true)
    by apply Get_set_own_eq.
  assert (Hup : upgrade element w =
    ([EvUpgrade element; EvPrototype element; EvMarked element;
      EvReady element f P w2], Throw ex w3)).
  { rewrite (upgrade_own _ _ _ _ Hm He Hr), Hp. cbn zeta.
    fold w2. rewrite lifecycle_unfold. cbn beta zeta.
    rewrite Hready. cbn [truthy call_callback]. rewrite Hf. fold P.
    rewrite Hc. reflexivity. }
  split; [done|]. split; [done|].
  split; [|split; [|split; [|split]]].
  - intros Hh. unfold prototype_step in Hp. rewrite Hh in Hp.
    injection Hp as <-. cbn. apply lookup_insert_eq.
  - intros Hh. unfold prototype_step in Hp. rewrite Hh in Hp.
    destruct (wg__prototype widget) as [defs|]; [|discriminate].
    injection Hp as <-. exists defs. split; [done|].
    intros k v Hk Hne. unfold w2. rewrite own_set_own.
    case_decide; [|done]. rewrite lookup_insert_ne by done.
    unfold own, defineProperties. cbn. rewrite lookup_insert_eq. cbn.
    apply lookup_union_Some_l, Hk.
  - by rewrite Hup.
  - intros Hk. assert (Hm3 := Hk f element [P] w2). rewrite Hc in Hm3.
    apply Hm3. unfold marked. by rewrite Hm2.
  - intros later. apply upgrade_marked.
Qed.

(** C5, as the code has it: the key is the [is] attribute, as written,
    when the node has a non-empty one, and the lower-cased node name
    otherwise; [registry] is read at exactly that key.  So letter case is
    ignored in the node name only: a node without [is] attribute matches
    the tag that its lower-cased name spells.  A key that is neither
    registered nor the name of something truthy that [registry] inherits
    leaves the node alone; an inherited member is taken for a widget. *)
Theorem upgrade_key_resolution element e w :
  marked w element = false →
  w_dom w !! element = Some e →
  let key := resolution_key e in
  (∀ s, e_attrs e !! "is" = Some s → s ≠ EmptyString → key = s) ∧
  (e_attrs e !! "is" = None ∨ e_attrs e !! "is" = Some EmptyString →
     key = toLowerCase (e_nodeName e)) ∧
  upgrade_key element w = ([], Ret key w) ∧
  (w_registry w !! key = None →
   truthy (Get w Object_prototype key) = false →
     upgrade element w = ([EvUpgrade element], Ret tt w)) ∧
  (∀ widget w1, w_registry w !! key = Some widget →
     prototype_step element widget w = Some w1 →
     ∃ l, log_of (upgrade element w) =
            EvUpgrade element :: EvPrototype element :: EvMarked element :: l) ∧
  (∀ w1, w_registry w !! key = None →
     truthy (Get w Object_prototype key) = true →
     mutation element (Member (Get w Object_prototype key)) w = Some w1 →
     ∃ l, log_of (upgrade element w) =
            EvUpgrade element :: EvPrototype element :: EvMarked element :: l).
Proof.
  intros Hm He key. subst key.
  split; [|split; [|split; [|split; [|split]]]].
  - intros s Hs Hne. unfold resolution_key. rewrite Hs.
    by rewrite bool_decide_eq_false_2.
  - intros [Hs|Hs]; unfold resolution_key; by rewrite Hs.
  - by apply upgrade_key_spec.
  - intros Hr Hi. apply (upgrade_unknown _ _ _ Hm He).
    unfold registry_get. by rewrite Hr.
  - intros widget w1 Hr Hp.
    rewrite (upgrade_own _ _ _ _ Hm He Hr), Hp. cbn. eauto.
  - intros w1 Hr Hi Hp. rewrite (upgrade_unfold _ _ _ Hm He).
    unfold registry_get. rewrite Hr. cbn zeta. cbn [found]. rewrite Hi, Hp.
    cbn. eauto.
Qed.

(** ** parse *)

Lemma upgraded_nodes_app l1 l2 :
  upgraded_nodes (l1 ++ l2)%list = (upgraded_nodes l1 ++ upgraded_nodes l2)%list.
Proof. apply omap_app. Qed.

(** The lifecycle calls log nothing but callbacks. *)
Lemma call_callback_quiet mk fv this arg w :
  (∀ f a pre, is_query (mk f a pre) = false ∧ upgraded_nodes [mk f a pre] = []) →
  count is_query (call_callback mk fv this arg w).1 = 0 ∧
  upgraded_nodes (call_callback mk fv this arg w).1 = [].
Proof.
  intros Hmk.
  destruct (call_callback_inv mk fv this arg w) as [(l & f & _ & _ & -> & _) | ->];
    [|done].
  destruct (Hmk f arg w) as [Hq Hu]. unfold count. cbn. by rewrite Hq.
Qed.

Lemma lifecycle_quiet element prototype w :
  count is_query (lifecycle element prototype w).1 = 0 ∧
  upgraded_nodes (lifecycle element prototype w).1 = [].
Proof.
  rewrite lifecycle_unfold. cbn beta zeta.
  set (r1 := if truthy (Get w element "readyCallback") then _ else _).
  assert (H1 : count is_query r1.1 = 0 ∧ upgraded_nodes r1.1 = []).
  { subst r1. destruct (truthy _); [|done]. by apply call_callback_quiet. }
  destruct r1 as [l1 [[] w3|ex w3]]; cbn [fst snd] in *; [|done].
  set (r2 := if truthy _ && _ then _ else _).
  assert (H2 : count is_query r2.1 = 0 ∧ upgraded_nodes r2.1 = []).
  { subst r2. destruct (truthy _ && _); [|done]. by apply call_callback_quiet. }
  rewrite count_app, upgraded_nodes_app.
  destruct H1 as [-> ->], H2 as [-> ->]. done.
Qed.

Lemma upgrade_log element w :
  count is_query (upgrade element w).1 = 0 ∧
  upgraded_nodes (upgrade element w).1 = [element].
Proof.
  destruct (marked w element) eqn:Hm.
  { by rewrite (upgrade_marked _ _ Hm). }
  destruct (w_dom w !! element) as [e|] eqn:He.
  2: { by rewrite (upgrade_not_element _ _ Hm He). }
  rewrite (upgrade_unfold _ _ _ Hm He). cbn zeta.
  destruct (found (registry_get w (resolution_key e))); [|done].
  destruct (mutation element _ w) as [w1|]; [|done].
  cbn [fst].
  destruct (lifecycle_quiet element
              (prototype_of (registry_get w (resolution_key e)))
              (set_own w1 element "__upgraded__" (VBool true))) as [Hq Hu].
  split.
  - change (count is_query (?a :: ?b :: ?c :: ?l)) with (count is_query l).
    done.
  - change (upgraded_nodes (EvUpgrade element :: ?b :: ?c :: ?l))
      with (element :: upgraded_nodes l).
    by rewrite Hu.
Qed.

Lemma upgrade_each_log nodes w :
  count is_query (upgrade_each nodes w).1 = 0 ∧
  upgraded_nodes (upgrade_each nodes w).1 `prefix_of` nodes ∧
  (∀ w', (upgrade_each nodes w).2 = Ret tt w' →
         upgraded_nodes (upgrade_each nodes w).1 = nodes).
Proof.
  revert w. induction nodes as [|node rest IH]; intros w.
  { cbn. repeat split; auto. }
  cbn [upgrade_each]. unfold mbind.
  destruct (upgrade_log node w) as [Hq Hu].
  destruct (upgrade node w) as [l [[] w1|ex w1]]; cbn [fst snd] in *.
  - destruct (IH w1) as (Hq' & Hp & Hall).
    rewrite count_app, upgraded_nodes_app, Hq, Hq', Hu.
    split; [done|]. split.
    + by apply (prefix_app [node]).
    + intros w' Hret. cbn. f_equal. by apply (Hall w').
  - rewrite Hq, Hu. split; [done|]. split; [|discriminate].
    by exists rest.
Qed.


(** ** register *)

Lemma in_registry_own w tag :
  is_Some (w_registry w !! tag) → in_registry w tag = true.
Proof. intros H. unfold in_registry. by rewrite bool_decide_eq_true_2. Qed.

Lemma in_registry_false w tag :
  in_registry w tag = false → w_registry w !! tag = None.
Proof.
  unfold in_registry. intros H. apply orb_false_iff in H as [H _].
  apply bool_decide_eq_false in H. destruct (w_registry w !! tag); [|done].
  destruct H. eauto.
Qed.

Lemma register_duplicate tag baseElement extensions w :
  in_registry w tag = true →
  register tag baseElement extensions w = Throw (DuplicateTagError tag) w.
Proof. intros H. unfold register. by rewrite H. Qed.

Lemma register_invalid_base tag baseElement extensions w :
  in_registry w tag = false →
  has_HTMLElement baseElement w = Some false →
  register tag baseElement extensions w = Throw InvalidBaseError w.
Proof. intros Hn Hb. unfold register. by rewrite Hn, Hb. Qed.

(** Without native registration, a call that returns has stored the tag. *)
Lemma register_stores_tag tag baseElement extensions w c w1 :
  has_document_register = false →
  register tag baseElement extensions w = Ret c w1 →
  is_Some (w_registry w1 !! tag).
Proof.
  intros Hnat. unfold register.
  destruct (in_registry w tag); [discriminate|].
  destruct (has_HTMLElement baseElement w) as [[]|]; try discriminate.
  destruct (getBaseName baseElement w) as [baseName w0|]; cbn [bind];
    [|discriminate].
  destruct (negb (truthy baseName)); [discriminate|].
  destruct (_ && _); [discriminate|].
  destruct (compose _ w0) as [ctor w2|]; cbn [bind]; [|discriminate].
  destruct (member w2 ctor "prototype") as [[| | | | | |p]|]; try discriminate.
  cbn [shadow bind]. unfold getTagConstructor. rewrite Hnat.
  destruct (member _ ctor "prototype") as [[| | | | | |proto]|]; try discriminate.
  intros [= _ <-]. cbn. rewrite lookup_insert_eq. eauto.
Qed.

Lemma register_again tag baseElement extensions w c w1 baseElement' extensions' :
  has_document_register = false →
  register tag baseElement extensions w = Ret c w1 →
  register tag baseElement' extensions' w1 = Throw (DuplicateTagError tag) w1.
Proof.
  intros Hnat Hreg. apply register_duplicate, in_registry_own.
  by apply (register_stores_tag _ _ _ _ _ _ Hnat Hreg).
Qed.

(** C1: a call of [register] for a tag that [registry] has (as an entry,
    or as a name that this plain object inherits), or with a base that
    neither is [HTMLElement] nor has it on the prototype chain of its
    prototype, throws (the duplicate-tag error in the first case, the
    invalid-base error otherwise) and leaves the store, with the
    registry, every entry in it and the selector list, as it was. *)
Theorem register_rejects tag baseElement extensions w :
  in_registry w tag = true ∨ has_HTMLElement baseElement w = Some false →
  let r := register tag baseElement extensions w in
  r = Throw (if in_registry w tag
             then DuplicateTagError tag else InvalidBaseError) w ∧
  (is_Some (w_registry w !! tag) → r = Throw (DuplicateTagError tag) w) ∧
  w_registry (world_of r) = w_registry w ∧
  w_selectors (world_of r) = w_selectors w ∧
  (∀ config, w_registry w !! tag = Some config →
             w_registry (world_of r) !! tag = Some config).
Proof.
  intros H r.
  assert (Hr : r = Throw (if in_registry w tag
                          then DuplicateTagError tag else InvalidBaseError) w).
  { subst r. destruct (in_registry w tag) eqn:Hreg.
    - by apply register_duplicate.
    - destruct H as [H|H]; [done|]. by apply register_invalid_base. }
  split; [done|]. split.
  - intros Hown. subst r. by apply register_duplicate, in_registry_own.
  - by rewrite Hr.
Qed.

(** ** Further properties of the descriptor factories *)

Lemma Has_set_element w l e l' k : Has (set_element w l e) l' k = Has w l' k.
Proof. unfold Has. cbn. by rewrite (get_prop_ext _ w (set_element w l e)). Qed.

(** X2: while the sub-node is absent, the attribute-mirrored property
    reads as [null] and every write, whatever the value, throws the
    undefined-node error and leaves the store as it was. *)
Theorem dom_attribute_without_node nodeName attributeName enumerable this w :
  truthy (Get w this nodeName) = false →
  let d := getDomAttributeDescriptor nodeName attributeName enumerable in
  d_get d this w = Ret VNull w ∧
  ∀ v, d_set d this v w = Throw (UndefinedNodeError attributeName) w.
Proof.
  intros H d. subst d. cbn [d_get d_set getDomAttributeDescriptor].
  by rewrite H.
Qed.

(** X3: attributes hold strings.  With a sub-node present, a truthy value
    that is set is read back as a string: as itself if it is a string, and
    never as itself if it is not. *)
Theorem dom_attribute_stringifies nodeName attributeName enumerable this w n e v :
  Get w this nodeName = VRef n →
  w_dom w !! n = Some e →
  truthy v = true →
  let d := getDomAttributeDescriptor nodeName attributeName enumerable in
  ∃ w1 s, d_set d this v w = Ret tt w1 ∧
          d_get d this w1 = Ret (VStr s) w1 ∧
          (∀ s0, v = VStr s0 → s = s0).
Proof.
  intros Hn He Hv d. subst d. cbn [d_get d_set getDomAttributeDescriptor].
  rewrite Hn. cbn [truthy]. rewrite Hv. cbn [setAttribute]. rewrite He.
  eexists. exists (ToString v). split; [done|].
  rewrite Get_set_element, Hn.
  cbn [truthy getAttribute set_element w_dom]. rewrite lookup_insert_eq.
  cbn [e_attrs]. rewrite lookup_insert_eq. split; [done|]. by intros s0 ->.
Qed.

Lemma set_own_twice w l k v : set_own (set_own w l k v) l k v = set_own w l k v.
Proof.
  unfold set_own at 1. rewrite own_set_own. rewrite decide_True by done.
  cbn. by rewrite !insert_insert_eq.
Qed.

(** The first half of the shadowing setter: the shadow property is written
    unless it reads as the value already. *)
Lemma shadow_store_step this sp v w :
  let w1 := if negb (strict_eq v (Get w this sp)) then set_own w this sp v else w in
  Get w1 this sp = v ∧
  w_dom w1 = w_dom w ∧
  (∀ k, k ≠ sp → Get w1 this k = Get w this k) ∧
  (v ≠ VUndef ∨ Has w this sp = true → Has w1 this sp = true).
Proof.
  destruct (strict_eq v (Get w this sp)) eqn:E; cbn [negb].
  - apply strict_eq_true in E. split; [done|]. split; [done|]. split; [done|].
    intros [Hv|Hh]; [|done]. apply Get_defined_Has. congruence.
  - split; [apply Get_set_own_eq|]. split; [done|].
    split; [intros k Hk; by apply Get_set_own_ne|].
    intros _. apply Has_set_own_eq.
Qed.

(** X5: the shadowing descriptor with a sub-node present.  A truthy value
    is written to the attribute and read back as a string (as itself if
    it is a string), which the read also leaves in the shadow property.  A
    falsy value removes the attribute and, unlike with the plain attribute
    descriptor, is read back as it was set (for [undefined]: if the shadow
    property exists). *)
Theorem shadow_attribute_with_node nodeName attributeName enumerable this w n e v :
  Get w this nodeName = VRef n →
  w_dom w !! n = Some e →
  let d := getShadowDomAttributeDescriptor nodeName attributeName enumerable in
  let sp := "_" ++ nodeName ++ "_" ++ toCamelCase attributeName in
  ∃ w1, d_set d this v w = Ret tt w1 ∧
    (truthy v = true →
       ∃ s, (∀ s0, v = VStr s0 → s = s0) ∧
         (∃ e1, w_dom w1 !! n = Some e1 ∧ e_attrs e1 !! attributeName = Some s) ∧
         ∃ w2, d_get d this w1 = Ret (VStr s) w2 ∧ Get w2 this sp = VStr s) ∧
    (truthy v = false →
       (∃ e1, w_dom w1 !! n = Some e1 ∧ e_attrs e1 !! attributeName = None) ∧
       (v ≠ VUndef ∨ Has w this sp = true → d_get d this w1 = Ret v w1)).
Proof.
  intros Hn He d sp. subst d.
  cbn [d_set d_get getShadowDomAttributeDescriptor].
  set (sn := nodeName ++ "_" ++ toCamelCase attributeName).
  fold sn in sp. change ("_" ++ sn) with sp.
  assert (Hfresh : nodeName ≠ sp).
  { intros Heq. by apply (shadow_name_fresh nodeName (toCamelCase attributeName)). }
  destruct (shadow_store_step this sp v w) as (Hsp & Hdom & Hother & Hhas).
  set (w0 := if negb (strict_eq v (Get w this sp)) then set_own w this sp v else w) in *.
  assert (Hbind : bind (if negb (strict_eq v (Get w this sp))
                        then shadow this sn v w else Ret v w)
                    (λ _ w, if truthy (Get w this nodeName) then
                              if truthy v
                              then setAttribute (Get w this nodeName) attributeName v w
                              else removeAttribute (Get w this nodeName) attributeName w
                            else Ret tt w) =
                  if truthy v
                  then setAttribute (VRef n) attributeName v w0
                  else removeAttribute (VRef n) attributeName w0).
  { subst w0. destruct (negb (strict_eq v (Get w this sp))); cbn [bind shadow];
      change ("_" ++ sn) with sp; rewrite ?Hother by done; by rewrite Hn. }
  rewrite Hbind. clear Hbind.
  assert (He0 : w_dom w0 !! n = Some e) by (by rewrite Hdom).
  destruct (truthy v) eqn:Hv; cbn [setAttribute removeAttribute]; rewrite He0.
  - eexists. split; [done|]. split; [|discriminate]. intros _.
    exists (ToString v). split; [by intros s0 ->|].
    split.
    { eexists. cbn. rewrite lookup_insert_eq. split; [done|]. cbn.
      apply lookup_insert_eq. }
    rewrite !Get_set_element, Hother, Hn by done.
    cbn [truthy getAttribute set_element w_dom]. rewrite lookup_insert_eq.
    cbn [e_attrs]. rewrite lookup_insert_eq. cbn [bind].
    rewrite ?Get_set_element, ?Has_set_element, Hsp.
    destruct (strict_eq (VStr (ToString v)) v) eqn:E; cbn [negb andb strict_eq].
    + apply strict_eq_true in E. eexists. split; [done|].
      rewrite Get_set_element. congruence.
    + cbn. eexists. split; [done|]. apply Get_set_own_eq.
  - eexists. split; [done|]. split; [discriminate|]. intros _.
    split.
    { eexists. cbn. rewrite lookup_insert_eq. split; [done|]. cbn.
      apply lookup_delete_eq. }
    intros Hok.
    rewrite !Get_set_element, Hother, Hn by done.
    cbn [truthy getAttribute set_element w_dom]. rewrite lookup_insert_eq.
    cbn [e_attrs]. rewrite lookup_delete_eq. cbn [bind].
    rewrite ?Get_set_element, ?Has_set_element, Hsp, (Hhas Hok).
    destruct (falsy_inv v Hv) as [-> | [-> | [-> | [-> | [-> | ->]]]]]; done.
Qed.

(** X6: reading the shadowing descriptor with a sub-node present.  An
    attribute that is there wins over whatever the shadow property holds,
    and the read refreshes the shadow property with it; when the attribute
    is missing, an existing shadow property is what is read. *)
Theorem shadow_attribute_read_with_node nodeName attributeName enumerable this w n e :
  Get w this nodeName = VRef n →
  w_dom w !! n = Some e →
  let d := getShadowDomAttributeDescriptor nodeName attributeName enumerable in
  let sp := "_" ++ nodeName ++ "_" ++ toCamelCase attributeName in
  (∀ s, e_attrs e !! attributeName = Some s →
     ∃ w1, d_get d this w = Ret (VStr s) w1 ∧ Get w1 this sp = VStr s ∧
           w_dom w1 = w_dom w) ∧
  (e_attrs e !! attributeName = None → Has w this sp = true →
     d_get d this w = Ret (Get w this sp) w).
Proof.
  intros Hn He d sp. subst d.
  cbn [d_get getShadowDomAttributeDescriptor].
  set (sn := nodeName ++ "_" ++ toCamelCase attributeName).
  fold sn in sp. change ("_" ++ sn) with sp.
  rewrite Hn. cbn [truthy getAttribute]. rewrite He. split.
  - intros s Hs. rewrite Hs. cbn [bind].
    destruct (strict_eq (VStr s) (Get w this sp)) eqn:E; cbn [negb andb strict_eq].
    + apply strict_eq_true in E. by exists w.
    + cbn. eexists. split; [done|]. split; [apply Get_set_own_eq|done].
  - intros Hs Hh. rewrite Hs. cbn [bind]. rewrite Hh.
    destruct (strict_eq VNull (Get w this sp)) eqn:E; cbn [negb]; [|done].
    apply strict_eq_true in E. by rewrite <- E.
Qed.

(** X7: the computed descriptor round-trips what the setter made of the
    value: with a getter that hands back the shadow value it is given,
    setting [x] and reading yields the setter's result, and the read leaves
    the store as the write left it. *)
Theorem calculated_set_then_get name getter setter enumerable this x v w w' :
  (∀ last w0, getter this name last w0 = Ret last w0) →
  setter this name x w = Ret v w' →
  let d := getShadowCalculatedDescriptor name getter setter enumerable in
  let w1 := set_own w' this ("_" ++ name) v in
  d_set d this x w = Ret tt w1 ∧ d_get d this w1 = Ret v w1.
Proof.
  intros Hg Hs d w1. subst d w1.
  cbn [d_set d_get getShadowCalculatedDescriptor].
  rewrite Hs, Hg. cbn [bind shadow]. split; [done|].
  rewrite Get_set_own_eq.
  destruct (strict_eq v v); cbn [negb]; [done|].
  unfold shadow. by rewrite set_own_twice.
Qed.

(** ** Further properties of the string helpers *)

Lemma lower_char_idem c : lower_char (lower_char c) = lower_char c.
Proof. destruct c as [[] [] [] [] [] [] [] []]; reflexivity. Qed.

Lemma toLowerCase_idem s : toLowerCase (toLowerCase s) = toLowerCase s.
Proof. induction s as [|c s IH]; cbn; [done|]. by rewrite lower_char_idem, IH. Qed.

Lemma replace_dashes_no_dash s :
  occurs "-"%char s = false → replace_dashes s = s.
Proof.
  induction s as [|c s IH]; cbn [occurs replace_dashes]; [done|].
  intros H. apply orb_false_iff in H as [Hc Hs].
  rewrite Ascii.eqb_sym in Hc. rewrite Hc. by rewrite IH.
Qed.

Lemma lower_char_not_dash c : Ascii.eqb "-"%char (lower_char c) = Ascii.eqb "-"%char c.
Proof. destruct c as [[] [] [] [] [] [] [] []]; reflexivity. Qed.

Lemma occurs_dash_toLowerCase s :
  occurs "-"%char (toLowerCase s) = occurs "-"%char s.
Proof.
  induction s as [|c s IH]; cbn [occurs toLowerCase]; [done|].
  by rewrite lower_char_not_dash, IH.
Qed.

(** X8: [toCamelCase] ignores the letter case of its argument, and on a
    name without dash it is [toLowerCase]; so the shadow property of the
    attributes [tabIndex] and [tabindex] is the same one. *)
Theorem toCamelCase_lowercase s :
  toCamelCase (toLowerCase s) = toCamelCase s ∧
  (occurs "-"%char s = false → toCamelCase s = toLowerCase s).
Proof.
  unfold toCamelCase. split.
  - by rewrite toLowerCase_idem.
  - intros H. apply replace_dashes_no_dash. by rewrite occurs_dash_toLowerCase.
Qed.

Lemma upper_char_not_lower d : is_lower (upper_char d) = false.
Proof. destruct d as [[] [] [] [] [] [] [] []]; reflexivity. Qed.

(** What [replace_dashes] starts with: a lower-case letter only if the
    argument starts with it. *)
Lemma replace_dashes_head s c r :
  replace_dashes s = String c r → is_lower c = true → ∃ r0, s = String c r0.
Proof.
  destruct s as [|c0 s]; cbn [replace_dashes]; [discriminate|].
  destruct (Ascii.eqb c0 "-"%char) eqn:Hc.
  - destruct s as [|d s'].
    + intros [= <- <-] _. eauto.
    + destruct (is_lower d) eqn:Hd.
      * intros [= <- <-] Hl. by rewrite upper_char_not_lower in Hl.
      * intros [= <- <-] _. eauto.
  - intros [= <- <-] _. eauto.
Qed.

Lemma dash_free_cons c s :
  dash_free s = true →
  (Ascii.eqb c "-"%char = true → ∀ d r, s = String d r → is_lower d = false) →
  dash_free (String c s) = true.
Proof.
  intros Hs Hc. destruct s as [|d r]; [done|].
  change (negb (Ascii.eqb c "-"%char && is_lower d) && dash_free (String d r) = true).
  rewrite Hs, andb_true_r. apply negb_true_iff, andb_false_iff.
  destruct (Ascii.eqb c "-"%char); [right; by eapply Hc|by left].
Qed.

Lemma replace_dashes_dash_free_aux n s :
  (String.length s ≤ n)%nat → dash_free (replace_dashes s) = true.
Proof.
  revert s. induction n as [|n IH]; intros s Hn.
  { destruct s; [done|cbn in Hn; lia]. }
  destruct s as [|c s]; [done|]. cbn [String.length] in Hn.
  cbn [replace_dashes].
  destruct (Ascii.eqb c "-"%char) eqn:Hc.
  - destruct s as [|d s']; [done|]. cbn [String.length] in Hn.
    destruct (is_lower d) eqn:Hd.
    + apply dash_free_cons; [apply IH; lia|].
      intros Hu. destruct d as [[] [] [] [] [] [] [] []]; discriminate.
    + apply dash_free_cons; [apply IH; cbn; lia|].
      intros _ d0 r0 Hr.
      destruct (is_lower d0) eqn:Hd0; [|done].
      destruct (replace_dashes_head _ _ _ Hr Hd0) as [r1 [= -> _]]. congruence.
  - apply dash_free_cons; [apply IH; lia|]. by rewrite Hc.
Qed.

(** X9: [toCamelCase] replaces every dash that a lower-case letter
    follows: none is left in the result. *)
Theorem toCamelCase_dash_free s : dash_free (toCamelCase s) = true.
Proof. by apply (replace_dashes_dash_free_aux (String.length (toLowerCase s))). Qed.

(** ** Further properties of upgrade *)

(** X10: the tag name of a node is looked up in lower case, so a widget
    registered under a tag with an upper-case letter is never found
    through the name of a node, only through an [is] attribute. *)
Theorem upgrade_key_is_lowercase element e w tag :
  w_dom w !! element = Some e →
  e_attrs e !! "is" = None ∨ e_attrs e !! "is" = Some EmptyString →
  toLowerCase tag ≠ tag →
  ∃ key, upgrade_key element w = ([], Ret key w) ∧
         toLowerCase key = key ∧ key ≠ tag.
Proof.
  intros He His Htag. exists (resolution_key e).
  split; [by apply upgrade_key_spec|].
  assert (Hk : resolution_key e = toLowerCase (e_nodeName e)).
  { unfold resolution_key. by destruct His as [-> | ->]. }
  rewrite Hk. split; [apply toLowerCase_idem|].
  intros <-. by rewrite toLowerCase_idem in Htag.
Qed.

(** X11: the marker is set before the callbacks run, so a call of
    [upgrade] for the same node from inside [readyCallback] finds the node
    marked and does nothing: on the store that the callback starts on,
    [upgrade] is a no-op. *)
Theorem upgrade_reentrant element e widget w w1 l f :
  marked w element = false →
  w_dom w !! element = Some e →
  w_registry w !! resolution_key e = Some widget →
  prototype_step element widget w = Some w1 →
  let w2 := set_own w1 element "__upgraded__" (VBool true) in
  Get w2 element "readyCallback" = VRef l →
  w_code w2 !! l = Some f →
  In (EvReady element f (VRef (wg_prototype widget)) w2)
     (log_of (upgrade element w)) ∧
  upgrade element w2 = ([EvUpgrade element], Ret tt w2).
Proof.
  intros Hm He Hr Hp w2 Hready Hf. split.
  - unfold log_of. rewrite (upgrade_own _ _ _ _ Hm He Hr), Hp.
    cbn zeta. fold w2. rewrite lifecycle_unfold. cbn beta zeta.
    rewrite Hready. cbn [truthy call_callback]. rewrite Hf.
    destruct (call f element _ w2); cbn; auto.
  - apply upgrade_marked. unfold marked, w2. by rewrite Get_set_own_eq.
Qed.

(** X12: both callbacks are optional.  For a widget without
    [readyCallback] whose [insertedCallback] is missing or whose node is
    not in the document, [upgrade] returns after setting the marker; it
    has then changed the node's prototype link and marker (easy way) or
    the node's own properties (hard way) and nothing else. *)
Theorem upgrade_without_callbacks element e widget w w1 :
  marked w element = false →
  w_dom w !! element = Some e →
  w_registry w !! resolution_key e = Some widget →
  prototype_step element widget w = Some w1 →
  let w2 := set_own w1 element "__upgraded__" (VBool true) in
  truthy (Get w2 element "readyCallback") = false →
  truthy (Get w2 element "insertedCallback") && contains element w2 = false →
  upgrade element w =
    ([EvUpgrade element; EvPrototype element; EvMarked element], Ret tt w2) ∧
  w_dom w2 = w_dom w ∧ w_registry w2 = w_registry w ∧
  w_selectors w2 = w_selectors w ∧
  (∀ l, l ≠ element → own w2 l = own w l ∧ w_proto w2 !! l = w_proto w !! l) ∧
  (has_proto = true →
     w_proto w2 !! element = Some (wg_prototype widget) ∧
     own w2 element = <["__upgraded__" := VBool true]> (own w element)) ∧
  (has_proto = false →
     w_proto w2 = w_proto w ∧
     ∃ defs, wg__prototype widget = Some defs ∧
       own w2 element = <["__upgraded__" := VBool true]> (defs ∪ own w element)).
Proof.
  intros Hm He Hr Hp w2 Hready Hins.
  split.
  { rewrite (upgrade_own _ _ _ _ Hm He Hr), Hp. cbn zeta. fold w2.
    rewrite lifecycle_unfold. cbn beta zeta. rewrite Hready. cbn [snd fst].
    by rewrite Hins. }
  unfold prototype_step in Hp. subst w2.
  destruct has_proto.
  - injection Hp as <-. cbn. repeat split; try done.
    + rewrite own_set_own. by rewrite decide_False.
    + by rewrite lookup_insert_ne.
    + apply lookup_insert_eq.
    + rewrite own_set_own. by rewrite decide_True.
  - destruct (wg__prototype widget) as [defs|]; [|discriminate].
    injection Hp as <-. cbn. repeat split; try done.
    + rewrite own_set_own. rewrite decide_False by done.
      unfold own. cbn. by rewrite lookup_insert_ne.
    + exists defs. split; [done|]. rewrite own_set_own, decide_True by done.
      unfold own at 1. cbn. by rewrite lookup_insert_eq.
Qed.

(** X13: the hard way needs the descriptors that [register] saved.  For a
    registry entry without them, [upgrade] on a platform without
    [__proto__] throws a [TypeError] before it has changed anything; the
    node stays unmarked, and another [upgrade] throws again. *)
Theorem upgrade_without_snapshot element e widget w :
  has_proto = false →
  marked w element = false →
  w_dom w !! element = Some e →
  w_registry w !! resolution_key e = Some widget →
  wg__prototype widget = None →
  upgrade element w = ([EvUpgrade element], Throw NativeTypeError w) ∧
  upgrade element (final (upgrade element w)) =
    ([EvUpgrade element], Throw NativeTypeError w).
Proof.
  intros Hh Hm He Hr Hs.
  assert (Hup : upgrade element w = ([EvUpgrade element], Throw NativeTypeError w)).
  { rewrite (upgrade_own _ _ _ _ Hm He Hr). unfold prototype_step.
    by rewrite Hh, Hs. }
  split; [done|]. by rewrite Hup.
Qed.

(** ** Further properties of parse *)

Lemma upgrade_each_app before after w :
  upgrade_each (before ++ after)%list w =
    mbind (upgrade_each before) (λ _, upgrade_each after) w.
Proof.
  revert w. induction before as [|node rest IH]; intros w.
  { cbn [app upgrade_each]. by rewrite bind_mret. }
  cbn [app upgrade_each]. unfold mbind.
  destruct (upgrade node w) as [l [[] w1|ex w1]]; cbn [fst snd]; [|done].
  rewrite IH. unfold mbind.
  destruct (upgrade_each rest w1) as [l' [[] w2|ex w2]]; cbn [fst snd]; [|done].
  by rewrite app_assoc.
Qed.

(** X14: [parse] stops at the first node whose upgrade throws: the nodes
    before it have been upgraded, the exception is the result, and the
    nodes after it are not looked at. *)
Theorem parse_aborts root w before node after w0 l0 w1 l1 w2 ex :
  has_document_register = false →
  querySelectorAll root (join (w_selectors w)) w =
    Ret (before ++ node :: after)%list w0 →
  upgrade_each before w0 = (l0, Ret tt w1) →
  upgrade node w1 = (l1, Throw ex w2) →
  parse root w =
    (EvQuery root (join (w_selectors w)) :: (l0 ++ l1)%list, Throw ex w2) ∧
  upgraded_nodes (log_of (parse root w)) = (before ++ [node])%list.
Proof.
  intros Hn Hq Hb Hu.
  assert (Hp : parse root w =
    (EvQuery root (join (w_selectors w)) :: (l0 ++ l1)%list, Throw ex w2)).
  { unfold parse. rewrite Hn, bind_read, bind_emit.
    unfold mbind at 1 2. unfold lift. rewrite Hq. cbn [fst snd app].
    rewrite upgrade_each_app. unfold mbind. rewrite Hb.
    cbn [upgrade_each fst snd]. unfold mbind. by rewrite Hu. }
  split; [done|]. rewrite Hp. unfold log_of. cbn [fst].
  change (upgraded_nodes (EvQuery ?r ?s :: ?l)) with (upgraded_nodes l).
  rewrite upgraded_nodes_app.
  destruct (upgrade_each_log before w0) as (_ & _ & Hall).
  rewrite Hb in Hall. cbn [fst snd] in Hall. rewrite (Hall w1 eq_refl).
  destruct (upgrade_log node w1) as [_ Hnode]. rewrite Hu in Hnode.
  cbn [fst] in Hnode. by rewrite Hnode.
Qed.

Lemma append_assoc (a b c : string) : (a ++ b) ++ c = a ++ b ++ c.
Proof.
  induction a as [|x a IH]; [done|].
  change (String x ((a ++ b) ++ c) = String x (a ++ b ++ c)). by rewrite IH.
Qed.

Lemma join_snoc l s0 s :
  join ((s0 :: l) ++ [s])%list = join (s0 :: l) ++ "," ++ s.
Proof.
  revert s0. induction l as [|s1 l IH]; intros s0; [done|].
  change (join ((s0 :: s1 :: l) ++ [s])%list)
    with (s0 ++ "," ++ join ((s1 :: l) ++ [s])%list).
  rewrite IH.
  change (join (s0 :: s1 :: l)) with (s0 ++ "," ++ join (s1 :: l)).
  by rewrite !append_assoc.
Qed.

(** X15: what [parse] asks the document.  Before any registration the
    selector is the empty string; when a selector has been pushed to the
    list, the query is that selector alone if the list was empty, and the
    former query, a comma and that selector otherwise. *)
Theorem parse_query_grows root w0 w1 s :
  has_document_register = false →
  w_selectors w1 = (w_selectors w0 ++ [s])%list →
  (w_selectors w0 = [] →
     ∃ rest, log_of (parse root w0) = EvQuery root EmptyString :: rest) ∧
  ∃ rest, log_of (parse root w1) =
            EvQuery root (match w_selectors w0 with
                          | [] => s
                          | _ => join (w_selectors w0) ++ "," ++ s
                          end) :: rest.
Proof.
  intros Hn Hs.
  assert (Hq : ∀ w, ∃ rest,
            log_of (parse root w) = EvQuery root (join (w_selectors w)) :: rest).
  { intros w. unfold parse, log_of. rewrite Hn, bind_read, bind_emit.
    cbn [fst]. eauto. }
  split.
  - intros He. destruct (Hq w0) as [rest Hr]. rewrite He in Hr. eauto.
  - destruct (Hq w1) as [rest Hr]. exists rest. rewrite Hr, Hs.
    destruct (w_selectors w0) as [|s0 l]; [done|]. by rewrite join_snoc.
Qed.

(** ** Further properties of register *)

Lemma getBaseName_world base w baseName w' :
  getBaseName base w = Ret baseName w' → w' = w.
Proof.
  unfold getBaseName.
  destruct (truthy (prototype_field w base "_baseName")); [by intros [= _ <-]|].
  destruct (member w base "name") as [n|]; [|discriminate].
  destruct (truthy base && truthy n); by intros [= _ <-].
Qed.

(** Every tag of the table is a non-empty string, so [config.extends] is
    truthy whenever it is set. *)
Lemma assoc_nonempty name e : assoc name tags = Some e → e ≠ EmptyString.
Proof.
  assert (H : ∀ l, forallb (λ p, negb (String.eqb p.2 EmptyString)) l = true →
                   assoc name l = Some e → e ≠ EmptyString).
  { induction l as [|[k v] l IH]; cbn [forallb assoc]; [discriminate|].
    intros Hf. apply andb_true_iff in Hf as [Hv Hl].
    destruct (String.eqb k name); [|by apply IH].
    intros [= <-]. cbn in Hv. apply negb_true_iff in Hv.
    by apply String.eqb_neq in Hv. }
  by apply H.
Qed.

(** What a registration that returns has done, without native support. *)
Lemma register_polyfill_inv tag baseElement extensions w c w1 :
  has_document_register = false →
  register tag baseElement extensions w = Ret c w1 →
  ∃ baseName ctor p w2,
    in_registry w tag = false ∧
    has_HTMLElement baseElement w = Some true ∧
    getBaseName baseElement w = Ret baseName w ∧
    truthy baseName = true ∧
    (baseName = VStr "HTMLElement" ∨ in_tags w (ToString baseName) = true) ∧
    compose (map (restore w) (baseElement :: extensions)) w = Ret ctor w2 ∧
    (∃ c0, ctor = VRef c0 ∧ Get w2 c0 "prototype" = VRef p) ∧
    c = Factory tag ∧
    let w3 := set_own (set_own w2 p "_ctor" ctor) p "_baseName" baseName in
    let extends :=
      if negb (strict_eq baseName (VStr "HTMLElement"))
      then (if truthy (tags_get w3 (ToString baseName))
            then Some (to_string w3 (tags_get w3 (ToString baseName)))
            else None)
      else None in
    w1 = push_selector
           (set_registry w3 tag
              (Widget p extends (if has_proto then None else Some (own w3 p))))
           (match extends with
            | Some e => e ++ "[is=" ++ dquote ++ tag ++ dquote ++ "]"
            | None => tag
            end).
Proof.
  intros Hnat. unfold register.
  destruct (in_registry w tag) eqn:Hreg; [discriminate|].
  destruct (has_HTMLElement baseElement w) as [[]|]; try discriminate.
  destruct (getBaseName baseElement w) as [baseName w0|] eqn:Hbn; cbn [bind];
    [|discriminate].
  pose proof (getBaseName_world _ _ _ _ Hbn) as ->.
  destruct (truthy baseName) eqn:Ht; cbn [negb]; [|discriminate].
  destruct (negb (strict_eq baseName (VStr "HTMLElement")) && _) eqn:Hrec;
    [discriminate|].
  destruct (compose _ w) as [ctor w2|] eqn:Hc; cbn [bind]; [|discriminate].
  destruct (member w2 ctor "prototype") as [[| | | | | |p]|] eqn:Hm;
    try discriminate.
  assert (Hctor : ∃ c0, ctor = VRef c0 ∧ Get w2 c0 "prototype" = VRef p).
  { destruct ctor; try discriminate. injection Hm as Hm. eauto. }
  destruct Hctor as (c0 & -> & Hproto).
  cbn [shadow bind]. unfold getTagConstructor. rewrite Hnat.
  cbn [member]. rewrite !Get_set_own_ne by done. rewrite Hproto.
  intros [= <- <-].
  exists baseName, (VRef c0), p, w2.
  split; [done|]. split; [done|]. split; [done|]. split; [done|].
  split.
  { apply andb_false_iff in Hrec as [Hrec|Hrec].
    - left. apply negb_false_iff, strict_eq_true in Hrec. done.
    - right. by apply negb_false_iff in Hrec. }
  split; [done|]. split; [eauto|]. split; [done|]. done.
Qed.

(** X16: what a successful registration records, without native support:
    the registry gets the entry for the tag and keeps its other entries,
    the selector list grows by one selector at its end, and the composited
    prototype carries the constructor and the base name as [_ctor] and
    [_baseName]; on a platform without [__proto__] the entry holds the
    prototype's own properties.  The selector is the tag itself for a
    widget on [HTMLElement], and [base[is="tag"]] with the non-empty [base]
    that the table gives for the class name.  A class name that the table
    only inherits passes as well: [extends] is then the string of the
    inherited member, if that is truthy, and the selector is built from
    it in the same way. *)
Theorem register_records tag baseElement extensions w c w1 :
  has_document_register = false →
  register tag baseElement extensions w = Ret c w1 →
  ∃ baseName ctor w2 config,
    compose (map (restore w) (baseElement :: extensions)) w = Ret ctor w2 ∧
    c = Factory tag ∧
    w_registry w1 !! tag = Some config ∧
    (∀ t, t ≠ tag → w_registry w1 !! t = w_registry w2 !! t) ∧
    Get w1 (wg_prototype config) "_ctor" = ctor ∧
    Get w1 (wg_prototype config) "_baseName" = baseName ∧
    (baseName = VStr "HTMLElement" →
       wg_extends config = None ∧
       w_selectors w1 = (w_selectors w2 ++ [tag])%list) ∧
    (baseName ≠ VStr "HTMLElement" →
       ∀ base, assoc (ToString baseName) tags = Some base →
         base ≠ EmptyString ∧ wg_extends config = Some base ∧
         w_selectors w1 =
           (w_selectors w2
              ++ [(base ++ "[is=" ++ dquote ++ tag ++ dquote ++ "]")%string])%list) ∧
    (baseName ≠ VStr "HTMLElement" →
       assoc (ToString baseName) tags = None →
       let w3 := set_own (set_own w2 (wg_prototype config) "_ctor" ctor)
                   (wg_prototype config) "_baseName" baseName in
       let inherited := Get w3 Object_prototype (ToString baseName) in
       Has w Object_prototype (ToString baseName) = true ∧
       wg_extends config =
         (if truthy inherited then Some (to_string w3 inherited) else None) ∧
       w_selectors w1 =
         (w_selectors w2
            ++ [match wg_extends config with
                | Some base => (base ++ "[is=" ++ dquote ++ tag ++ dquote ++ "]")%string
                | None => tag
                end])%list) ∧
    (has_proto = true → wg__prototype config = None) ∧
    (has_proto = false →
       wg__prototype config = Some (own w1 (wg_prototype config)) ∧
       own w1 (wg_prototype config) !! "_ctor" = Some ctor ∧
       own w1 (wg_prototype config) !! "_baseName" = Some baseName).
Proof.
  intros Hnat Hreg.
  destruct (register_polyfill_inv _ _ _ _ _ _ Hnat Hreg)
    as (baseName & ctor & p & w2 & _ & _ & _ & Ht & Hknown & Hc & _ & -> & Hw1).
  cbn zeta in Hw1.
  set (w3 := set_own (set_own w2 p "_ctor" ctor) p "_baseName" baseName) in *.
  set (extends := if negb (strict_eq baseName (VStr "HTMLElement"))
                  then (if truthy (tags_get w3 (ToString baseName))
                        then Some (to_string w3 (tags_get w3 (ToString baseName)))
                        else None)
                  else None) in *.
  set (config := Widget p extends (if has_proto then None else Some (own w3 p))) in *.
  assert (Hown : own w1 p = own w3 p) by (by rewrite Hw1).
  assert (Hget : ∀ k, Get w1 p k = Get w3 p k).
  { intros k. rewrite Hw1. by apply Get_ext. }
  assert (Hne : baseName ≠ VStr "HTMLElement" →
                strict_eq baseName (VStr "HTMLElement") = false).
  { intros Hne. destruct (strict_eq baseName (VStr "HTMLElement")) eqn:E;
      [by apply strict_eq_true in E|done]. }
  exists baseName, ctor, w2, config.
  split; [done|]. split; [done|].
  split. { rewrite Hw1. cbn. apply lookup_insert_eq. }
  split. { intros t Ht'. rewrite Hw1. cbn. by rewrite lookup_insert_ne. }
  split. { cbn [config wg_prototype]. rewrite Hget. unfold w3.
           rewrite Get_set_own_ne by done. apply Get_set_own_eq. }
  split. { cbn [config wg_prototype]. rewrite Hget. apply Get_set_own_eq. }
  split.
  { intros ->. subst extends. cbn. split; [done|]. by rewrite Hw1. }
  split.
  { intros Hb base Hbase.
    assert (Hnonempty : base ≠ EmptyString) by (by eapply assoc_nonempty).
    assert (Hext : extends = Some base).
    { subst extends. rewrite (Hne Hb). cbn [negb]. unfold tags_get.
      rewrite Hbase. cbn [truthy to_string ToString].
      by rewrite bool_decide_eq_false_2. }
    split; [done|]. split; [done|]. rewrite Hw1, Hext. done. }
  split.
  { intros Hb Hnone. cbn zeta. cbn [config wg_prototype wg_extends]. fold w3.
    split.
    { destruct Hknown as [?|Hin]; [done|]. unfold in_tags in Hin.
      rewrite Hnone in Hin.
      rewrite bool_decide_eq_false_2 in Hin by (by intros [? ?]). done. }
    assert (Hext : extends =
              if truthy (Get w3 Object_prototype (ToString baseName))
              then Some (to_string w3 (Get w3 Object_prototype (ToString baseName)))
              else None).
    { subst extends. rewrite (Hne Hb). cbn [negb]. unfold tags_get.
      by rewrite Hnone. }
    split; [done|]. by rewrite Hw1. }
  split. { intros Hh. cbn [config wg__prototype]. by rewrite Hh. }
  intros Hh. cbn [config wg__prototype wg_prototype]. rewrite Hh, Hown.
  split; [done|]. unfold w3. rewrite !own_set_own, !decide_True by done.
  split; [|apply lookup_insert_eq].
  rewrite lookup_insert_ne by done. apply lookup_insert_eq.
Qed.

(** X17: a widget can be composed again.  For the constructor that
    [compose] made, [getBaseName] answers the base name that [register]
    saved, before it looks at the constructor's own name, and [restore]
    gives the constructor itself. *)
Theorem register_recomposition tag baseElement extensions w c w1 :
  has_document_register = false →
  register tag baseElement extensions w = Ret c w1 →
  ∃ baseName ctor w2,
    compose (map (restore w) (baseElement :: extensions)) w = Ret ctor w2 ∧
    getBaseName baseElement w = Ret baseName w ∧
    getBaseName ctor w1 = Ret baseName w1 ∧
    restore w1 ctor = ctor.
Proof.
  intros Hnat Hreg.
  destruct (register_polyfill_inv _ _ _ _ _ _ Hnat Hreg)
    as (baseName & ctor & p & w2 & _ & _ & Hbn & Ht & _ & Hc & (c0 & -> & Hp)
        & _ & Hw1).
  cbn zeta in Hw1.
  set (w3 := set_own (set_own w2 p "_ctor" (VRef c0)) p "_baseName" baseName) in *.
  assert (Hget : ∀ l k, Get w1 l k = Get w3 l k).
  { intros l k. rewrite Hw1. by apply Get_ext. }
  assert (Hproto : Get w1 c0 "prototype" = VRef p).
  { rewrite Hget. unfold w3. by rewrite !Get_set_own_ne. }
  assert (Hfield1 : prototype_field w1 (VRef c0) "_baseName" = baseName).
  { unfold prototype_field. cbn [truthy member]. rewrite Hproto.
    cbn [truthy member default from_option id]. rewrite Hget. apply Get_set_own_eq. }
  assert (Hfield2 : prototype_field w1 (VRef c0) "_ctor" = VRef c0).
  { unfold prototype_field. cbn [truthy member]. rewrite Hproto.
    cbn [truthy member default from_option id]. rewrite Hget. unfold w3.
    rewrite Get_set_own_ne by done. apply Get_set_own_eq. }
  exists baseName, (VRef c0), w2.
  split; [done|]. split; [done|]. split.
  - unfold getBaseName. by rewrite Hfield1, Ht.
  - unfold restore. by rewrite Hfield2.
Qed.


(** X19: the two later checks of [register] also reject before anything
    is written: a base whose class name cannot be told gives the
    unresolvable-name error, a class name that is not [HTMLElement] and
    that the table neither has nor inherits gives the unrecognised-base
    error, and the store is as it was. *)
Theorem register_rejects_base_name tag baseElement extensions w baseName :
  in_registry w tag = false →
  has_HTMLElement baseElement w = Some true →
  getBaseName baseElement w = Ret baseName w →
  (truthy baseName = false →
     register tag baseElement extensions w = Throw UnresolvableBaseNameError w) ∧
  (truthy baseName = true → baseName ≠ VStr "HTMLElement" →
     assoc (ToString baseName) tags = None →
     Has w Object_prototype (ToString baseName) = false →
     register tag baseElement extensions w =
       Throw (UnrecognizedBaseError (ToString baseName)) w).
Proof.
  intros Hreg Hb Hbn. unfold register.
  rewrite Hreg, Hb, Hbn. cbn [bind]. split.
  - by intros ->.
  - intros -> Hne Hnone Hinh. cbn [negb].
    assert (E : strict_eq baseName (VStr "HTMLElement") = false).
    { destruct (strict_eq baseName (VStr "HTMLElement")) eqn:E; [|done].
      by apply strict_eq_true in E. }
    unfold in_tags. rewrite E, Hnone, Hinh. cbn [negb andb].
    by rewrite bool_decide_eq_false_2 by (by intros [? ?]).
Qed.

(** X20: with native support [register] stores the entry, without the
    saved descriptors, hands it to [doc.register] and returns what the
    host returns; it does not touch the selector list itself. *)
Theorem register_native tag baseElement extensions w c w1 :
  has_document_register = true →
  register tag baseElement extensions w = Ret c w1 →
  ∃ w0 config v,
    w_registry w0 !! tag = Some config ∧
    wg__prototype config = None ∧
    (∃ ctor w2, compose (map (restore w) (baseElement :: extensions)) w = Ret ctor w2 ∧
                w_selectors w0 = w_selectors w2) ∧
    doc_register tag config w0 = Ret v w1 ∧
    c = NativeCtor v.
Proof.
  intros Hnat. unfold register.
  destruct (in_registry w tag); [discriminate|].
  destruct (has_HTMLElement baseElement w) as [[]|]; try discriminate.
  destruct (getBaseName baseElement w) as [baseName w0|] eqn:Hbn; cbn [bind];
    [|discriminate].
  pose proof (getBaseName_world _ _ _ _ Hbn) as ->.
  destruct (negb (truthy baseName)); [discriminate|].
  destruct (_ && _); [discriminate|].
  destruct (compose _ w) as [ctor w2|] eqn:Hc; cbn [bind]; [|discriminate].
  destruct (member w2 ctor "prototype") as [[| | | | | |p]|]; try discriminate.
  cbn [shadow bind]. unfold getTagConstructor. rewrite Hnat.
  destruct (member _ ctor "prototype") as [[| | | | | |proto]|]; try discriminate.
  set (config := Widget proto _ None). set (w0 := set_registry _ tag config).
  destruct (doc_register tag config w0) as [v w'|] eqn:Hd; cbn [bind];
    [|discriminate].
  intros [= <- <-]. exists w0, config, v.
  split; [apply lookup_insert_eq|]. split; [done|].
  split; [by exists ctor, w2|]. done.
Qed.

(** ** Properties of createElement *)

Lemma createElement_unfold tag w :
  createElement tag w =
    let base := if found (registry_get w tag)
                then extends_of (registry_get w tag) w else None in
    match doc_createElement (default tag base) w with
    | Throw ex w1 => ([], Throw ex w1)
    | Ret element w1 =>
        match (match base with
               | Some _ => setAttribute (VRef element) "is" (VStr tag) w1
               | None => Ret tt w1
               end) with
        | Throw ex w2 => ([], Throw ex w2)
        | Ret _ w2 =>
            ((upgrade element w2).1,
             match (upgrade element w2).2 with
             | Ret _ w3 => Ret element w3
             | Throw ex w3 => Throw ex w3
             end)
        end
    end.
Proof.
  assert (Hup : ∀ element w2,
    mbind (upgrade element) (λ _, mret element) w2 =
      ((upgrade element w2).1,
       match (upgrade element w2).2 with
       | Ret _ w3 => Ret element w3
       | Throw ex w3 => Throw ex w3
       end)).
  { intros element w2. unfold mbind, mret.
    destruct (upgrade element w2) as [l [[] w3|ex w3]]; cbn [fst snd]; [|done].
    by rewrite app_nil_r. }
  unfold createElement. rewrite bind_read. cbn zeta.
  set (base := if found (registry_get w tag)
               then extends_of (registry_get w tag) w else None).
  destruct (doc_createElement (default tag base) w) as [element w1|ex w1] eqn:Hc.
  2: { erewrite bind_throws; [done|]. unfold lift. by rewrite Hc. }
  erewrite bind_returns; last by (unfold lift; rewrite Hc).
  destruct base as [b|].
  - destruct (setAttribute (VRef element) "is" (VStr tag) w1) as [[] w2|ex w2] eqn:Hs.
    + erewrite bind_returns; last by (unfold lift; rewrite Hs). apply Hup.
    + erewrite bind_throws; [done|]. unfold lift. by rewrite Hs.
  - rewrite bind_mret. apply Hup.
Qed.

(** The base tag of a registered widget is what [createElement] reads. *)
Lemma createElement_base tag config w :
  w_registry w !! tag = Some config →
  (if found (registry_get w tag)
   then extends_of (registry_get w tag) w else None) = wg_extends config.
Proof. intros H. unfold registry_get. by rewrite H. Qed.

(** X21: for a tag that is not registered, or registered without a base
    tag, [createElement] asks the host for an element of that name, calls
    [upgrade] on it once and returns it; when the key of the host's
    element is neither registered nor the name of a truthy member that the
    registry inherits, the element comes back as the host made it.  A
    failure of the host is passed on, and nothing is upgraded. *)
Theorem createElement_plain tag w :
  match w_registry w !! tag with
  | Some config => wg_extends config
  | None => extends_of (Member (Get w Object_prototype tag)) w
  end = None →
  (∀ element w1, doc_createElement tag w = Ret element w1 →
     log_of (createElement tag w) = log_of (upgrade element w1) ∧
     upgraded_nodes (log_of (createElement tag w)) = [element] ∧
     (∀ w2, result_of (upgrade element w1) = Ret tt w2 →
            result_of (createElement tag w) = Ret element w2) ∧
     (∀ e, marked w1 element = false → w_dom w1 !! element = Some e →
           w_registry w1 !! resolution_key e = None →
           truthy (Get w1 Object_prototype (resolution_key e)) = false →
           createElement tag w = ([EvUpgrade element], Ret element w1))) ∧
  (∀ ex w1, doc_createElement tag w = Throw ex w1 →
     createElement tag w = ([], Throw ex w1)).
Proof.
  intros Hbase.
  assert (Hb : (if found (registry_get w tag)
                then extends_of (registry_get w tag) w else None) = None).
  { unfold registry_get. destruct (w_registry w !! tag); [done|].
    by destruct (found _). }
  rewrite createElement_unfold, Hb. cbn [default from_option id].
  cbn zeta. split.
  - intros element w1 ->. unfold log_of, result_of. cbn [fst snd].
    split; [done|]. split; [apply upgrade_log|]. split.
    + by intros w2 ->.
    + intros e Hm He Hr Hinh. rewrite (upgrade_unknown _ _ _ Hm He); [done|].
      unfold registry_get. by rewrite Hr.
  - by intros ex w1 ->.
Qed.

(** X22: for a widget that extends a base tag, [createElement] asks the
    host for the base element and writes the widget's tag into its [is]
    attribute before it calls [upgrade]; the key of the new element is
    then the tag, whatever the element's own name is. *)
Theorem createElement_extends tag config base w element w1 e :
  w_registry w !! tag = Some config →
  wg_extends config = Some base →
  doc_createElement base w = Ret element w1 →
  w_dom w1 !! element = Some e →
  let w2 := set_element w1 element
              (Element (e_nodeName e) (<["is" := tag]> (e_attrs e)) (e_attached e)) in
  log_of (createElement tag w) = log_of (upgrade element w2) ∧
  (∀ w3, result_of (upgrade element w2) = Ret tt w3 →
         result_of (createElement tag w) = Ret element w3) ∧
  (tag ≠ EmptyString → upgrade_key element w2 = ([], Ret tag w2)).
Proof.
  intros Hr Hext Hc He w2.
  rewrite createElement_unfold, (createElement_base _ _ _ Hr), Hext.
  cbn [default from_option id]. cbn zeta.
  rewrite Hc. cbn [setAttribute ToString]. rewrite He. fold w2.
  unfold log_of, result_of. cbn [fst snd].
  split; [done|]. split; [by intros w3 ->|].
  intros Hne.
  assert (He2 : w_dom w2 !! element = Some
            (Element (e_nodeName e) (<["is" := tag]> (e_attrs e)) (e_attached e))).
  { unfold w2. cbn. apply lookup_insert_eq. }
  rewrite (upgrade_key_spec _ _ _ He2). unfold resolution_key. cbn [e_attrs].
  rewrite lookup_insert_eq. by rewrite bool_decide_eq_false_2.
Qed.

End Widgets.

(** ** The statements on the sample page *)

Lemma dom_attribute_round_trip_witness :
  let d := getDomAttributeDescriptor "focusNode" "label" None in
  (∃ w1, d_set d 1%positive (VStr "OK") sample_with_node = Ret tt w1 ∧
         d_get d 1%positive w1 = Ret (VStr "OK") w1) ∧
  (∃ w1, d_set d 1%positive (VNum 0) sample_with_node = Ret tt w1 ∧
         d_get d 1%positive w1 = Ret VNull w1).
Proof.
  intros d.
  destruct (dom_attribute_round_trip "focusNode" "label" None 1%positive
              sample_with_node 2%positive (Element "SPAN" ∅ false)
              eq_refl eq_refl) as [H1 H2].
  split.
  - destruct (H1 "OK" ltac:(discriminate)) as [Ha Hb]. eauto.
  - destruct (H2 (VNum 0) eq_refl) as (Ha & _ & Hb). eauto.
Defined.

(** C3 fails for the empty string: it is a string, and setting it removes
    the attribute, so [null] is read back. *)
Lemma dom_attribute_empty_string :
  let d := getDomAttributeDescriptor "focusNode" "label" None in
  ∃ w1, d_set d 1%positive (VStr EmptyString) sample_with_node = Ret tt w1 ∧
        d_get d 1%positive w1 = Ret VNull w1 ∧
        d_get d 1%positive w1 ≠ Ret (VStr EmptyString) w1.
Proof.
  intros d. eexists. split; [reflexivity|]. split; [reflexivity|].
  vm_compute. discriminate.
Qed.

Lemma shadow_attribute_persists_witness :
  let d := getShadowDomAttributeDescriptor "focusNode" "aria-label" None in
  (∃ w1, d_set d 1%positive (VStr EmptyString) sample_bare = Ret tt w1 ∧
         truthy (Get w1 1%positive "focusNode") = false ∧
         d_get d 1%positive w1 = Ret (VStr EmptyString) w1) ∧
  (d_set d 1%positive VUndef sample_bare = Ret tt sample_bare ∧
   d_get d 1%positive sample_bare =
     Ret VNull (set_own sample_bare 1%positive "_focusNode_ariaLabel" VNull)).
Proof.
  intros d. split.
  - destruct (shadow_attribute_persists "focusNode" "aria-label" None 1%positive
                sample_bare (VStr EmptyString) eq_refl) as [Hset _].
    apply Hset. left. discriminate.
  - destruct (shadow_attribute_persists "focusNode" "aria-label" None 1%positive
                sample_bare VUndef eq_refl) as [_ Hnull].
    exact (Hnull eq_refl eq_refl).
Defined.

(** C8 fails for [undefined] on a widget that has no shadow property yet:
    the setter stores nothing, and the getter answers [null] (and stores
    that). *)
Lemma shadow_attribute_undefined :
  let d := getShadowDomAttributeDescriptor "focusNode" "aria-label" None in
  d_set d 1%positive VUndef sample_bare = Ret tt sample_bare ∧
  truthy (Get sample_bare 1%positive "focusNode") = false ∧
  d_get d 1%positive sample_bare =
    Ret VNull (set_own sample_bare 1%positive "_focusNode_ariaLabel" VNull) ∧
  VNull ≠ VUndef.
Proof. repeat split; try reflexivity. discriminate. Qed.

(** The two paths differ on a widget without shadow property when the user
    function returns [undefined]: reading leaves the property absent,
    writing creates it. *)
Example calculated_descriptor_asymmetry :
  let f := (λ _ _ _ w, Ret VUndef w) : loc → string → value → world → outcome value in
  let d := getShadowCalculatedDescriptor "value" f f None in
  Has (world_of (d_get d 1%positive sample_bare)) 1%positive "_value" = false ∧
  Has (world_of (d_set d 1%positive (VNum 7) sample_bare)) 1%positive "_value" = true.
Proof. split; reflexivity. Qed.

Lemma delegate_set_without_delegate_witness :
  let d := getDelegateDescriptor "focusNode" "value" None in
  d_set d 1%positive (VStr "x") sample_bare =
    Throw (UndefinedDelegateError "value") sample_bare ∧
  Get (world_of (d_set d 1%positive (VStr "x") sample_bare)) 1%positive "focusNode" =
    Get sample_bare 1%positive "focusNode" ∧
  own (world_of (d_set d 1%positive (VStr "x") sample_bare)) 1%positive =
    own sample_bare 1%positive.
Proof.
  apply (delegate_set_without_delegate "focusNode" "value" None 1%positive
           (VStr "x") sample_bare).
  reflexivity.
Defined.

Lemma sample_call_keeps_marker element :
  callbacks_keep_marker sample_call element.
Proof.
  intros f this args w Hm. unfold sample_call, marked in *.
  destruct f as [[[]|[]|]|[[]|[]|]|]; cbn [world_of]; try done;
    by rewrite Get_set_own_ne.
Qed.

Example upgrade_sample_button :
  upgrade true sample_call sample_Object_prototype 1%positive sample_page =
    (let w2 := set_own (set_proto sample_page 1%positive 10%positive)
                 1%positive "__upgraded__" (VBool true) in
     let w3 := set_own w2 1%positive "ready" (VBool true) in
     ([EvUpgrade 1%positive; EvPrototype 1%positive; EvMarked 1%positive;
       EvReady 1%positive 1%positive (VRef 10%positive) w2;
       EvInserted 1%positive 2%positive (VRef 10%positive) w3],
      Ret tt (set_own w3 1%positive "inserted" (VBool true)))).
Proof. reflexivity. Qed.


Lemma upgrade_order_witness :
  let w0 := sample_page in
  let el := 1%positive in
  let widget := Widget 10%positive None None in
  ∃ w1 ready_log w3 inserted_log,
    prototype_step true el widget w0 = Some w1 ∧
    let w2 := set_own w1 el "__upgraded__" (VBool true) in
    let prototype := VRef (wg_prototype widget) in
    log_of (upgrade true sample_call sample_Object_prototype el w0) =
      ([EvUpgrade el; EvPrototype el; EvMarked el]
         ++ ready_log ++ inserted_log)%list ∧
    Get w2 el "__upgraded__" = VBool true ∧
    (truthy (Get w2 el "readyCallback") = false ∧ ready_log = [] ∧ w3 = w2
     ∨ ∃ l f v,
         Get w2 el "readyCallback" = VRef l ∧ w_code w2 !! l = Some f ∧
         ready_log = [EvReady el f prototype w2] ∧
         sample_call f el [prototype] w2 = Ret v w3) ∧
    (truthy (Get w3 el "insertedCallback") && contains el w3 = false ∧
       inserted_log = [] ∧
       final (upgrade true sample_call sample_Object_prototype el w0) = w3
     ∨ ∃ l g v,
         Get w3 el "insertedCallback" = VRef l ∧
         contains el w3 = true ∧ w_code w3 !! l = Some g ∧
         inserted_log = [EvInserted el g prototype w3] ∧
         sample_call g el [prototype] w3 =
           Ret v (final (upgrade true sample_call sample_Object_prototype el w0))) ∧
    (callbacks_keep_marker sample_call el → marked w3 el = true).
Proof.
  intros w0 el widget.
  apply (upgrade_order true sample_call
      sample_Object_prototype el (Element "PD-BUTTON" ∅ true) widget w0
           (final (upgrade true sample_call sample_Object_prototype el w0)));
    reflexivity.
Defined.

Example upgrade_sample_broken :
  upgrade true sample_call sample_Object_prototype 4%positive sample_page =
    (let w2 := set_own (set_proto sample_page 4%positive 20%positive)
                 4%positive "__upgraded__" (VBool true) in
     ([EvUpgrade 4%positive; EvPrototype 4%positive; EvMarked 4%positive;
       EvReady 4%positive 3%positive (VRef 20%positive) w2],
      Throw (UserError (VStr "boom")) w2)).
Proof. reflexivity. Qed.

Lemma upgrade_ready_throws_witness :
  let w0 := sample_page in
  let el := 4%positive in
  let w2 := set_own (set_proto w0 el 20%positive) el "__upgraded__" (VBool true) in
  upgrade true sample_call sample_Object_prototype el w0 =
    ([EvUpgrade el; EvPrototype el; EvMarked el;
      EvReady el 3%positive (VRef 20%positive) w2],
     Throw (UserError (VStr "boom")) w2) ∧
  Get w2 el "__upgraded__" = VBool true ∧
  w_proto w2 !! el = Some 20%positive ∧
  count is_inserted (log_of (upgrade true sample_call sample_Object_prototype el w0)) = 0 ∧
  marked w2 el = true ∧
  upgrade true sample_call sample_Object_prototype el w2 = ([EvUpgrade el], Ret tt w2).
Proof.
  intros w0 el w2.
  destruct (upgrade_ready_throws true sample_call sample_Object_prototype el
              (Element "PD-BROKEN" ∅ true) (Widget 20%positive None None)
              w0 (set_proto w0 el 20%positive) 21%positive 3%positive
              (UserError (VStr "boom")) w2
              eq_refl eq_refl eq_refl eq_refl eq_refl eq_refl eq_refl)
    as (Hup & Hm & Hproto & _ & Hins & Hkeep & Hlater).
  split; [exact Hup|]. split; [exact Hm|]. split; [by apply Hproto|].
  split; [exact Hins|]. split.
  - apply Hkeep, sample_call_keeps_marker.
  - apply Hlater, Hkeep, sample_call_keeps_marker.
Defined.

Lemma upgrade_key_resolution_witness :
  (resolution_key (Element "PD-BUTTON" ∅ true) = "pd-button" ∧
   upgrade_key 1%positive sample_page = ([], Ret "pd-button" sample_page) ∧
   ∃ l, log_of (upgrade true sample_call sample_Object_prototype 1%positive
                  sample_page) =
          EvUpgrade 1%positive :: EvPrototype 1%positive :: EvMarked 1%positive :: l) ∧
  (upgrade true sample_call sample_Object_prototype 3%positive sample_page =
     ([EvUpgrade 3%positive], Ret tt sample_page)) ∧
  (upgrade_key 8%positive sample_object_page =
     ([], Ret "constructor" sample_object_page) ∧
   w_registry sample_object_page !! "constructor" = None ∧
   ∃ l, log_of (upgrade true sample_call sample_Object_prototype 8%positive
                  sample_object_page) =
          EvUpgrade 8%positive :: EvPrototype 8%positive :: EvMarked 8%positive :: l).
Proof.
  split; [|split].
  - destruct (upgrade_key_resolution true sample_call sample_Object_prototype
                1%positive (Element "PD-BUTTON" ∅ true) sample_page
                eq_refl eq_refl)
      as (_ & Hname & Hkey & _ & Hsome & _).
    split; [by apply Hname; left|]. split; [exact Hkey|].
    by apply (Hsome (Widget 10%positive None None)
                (set_proto sample_page 1%positive 10%positive)).
  - destruct (upgrade_key_resolution true sample_call sample_Object_prototype
                3%positive (Element "DIV" ∅ true) sample_page eq_refl eq_refl)
      as (_ & _ & _ & Hnone & _).
    by apply Hnone.
  - destruct (upgrade_key_resolution true sample_call sample_Object_prototype
                8%positive (Element "DIV" {[ "is" := "constructor" ]} false)
                sample_object_page eq_refl eq_refl)
      as (_ & _ & Hkey & _ & _ & Hinherited).
    split; [exact Hkey|]. split; [reflexivity|].
    by apply (Hinherited (set_proto sample_object_page 8%positive 105%positive)).
Defined.

(** What [registry] inherits counts as a widget: element 8 is
    [<div is=constructor>], and [upgrade] makes [Object.prototype] its
    prototype and marks it; without [__proto__] the call throws. *)
Example upgrade_sample_inherited :
  upgrade true sample_call sample_Object_prototype 8%positive sample_object_page =
    ([EvUpgrade 8%positive; EvPrototype 8%positive; EvMarked 8%positive],
     Ret tt (set_own (set_proto sample_object_page 8%positive 105%positive)
               8%positive "__upgraded__" (VBool true))) ∧
  upgrade false sample_call sample_Object_prototype 8%positive sample_object_page =
    ([EvUpgrade 8%positive], Throw NativeTypeError sample_object_page).
Proof. split; reflexivity. Qed.

(** C5 fails for the [is] attribute: element 5 is [<button is=PD-TOGGLE>],
    its key differs from the registered tag [pd-toggle] in letter case only,
    and [upgrade] finds no widget for it.  Element 6 has an [is] attribute,
    the empty string, and yet is looked up by its tag name. *)
Lemma upgrade_key_is_case_sensitive :
  ((∃ e, w_dom sample_page !! 5%positive = Some e ∧
         e_attrs e !! "is" = Some "PD-TOGGLE") ∧
   toLowerCase "PD-TOGGLE" = toLowerCase "pd-toggle" ∧
   is_Some (w_registry sample_page !! "pd-toggle") ∧
   upgrade_key 5%positive sample_page = ([], Ret "PD-TOGGLE" sample_page) ∧
   w_registry sample_page !! "PD-TOGGLE" = None ∧
   upgrade true sample_call sample_Object_prototype 5%positive sample_page =
     ([EvUpgrade 5%positive], Ret tt sample_page)) ∧
  ((∃ e, w_dom sample_page !! 6%positive = Some e ∧
         e_attrs e !! "is" = Some EmptyString) ∧
   upgrade_key 6%positive sample_page = ([], Ret "pd-button" sample_page)).
Proof.
  split.
  - split; [eexists; split; reflexivity|].
    split; [reflexivity|]. split; [by eexists|]. repeat split; reflexivity.
  - split; [eexists; split; reflexivity|reflexivity].
Qed.

(** The scan of the spec: of the three nodes, the two that [parse] finds
    end up marked, the third stays as it was. *)
Example parse_sample :
  let r := parse false true sample_call sample_query
      sample_Object_prototype None sample_page in
  upgraded_nodes (log_of r) = [1%positive; 2%positive] ∧
  marked (final r) 1%positive = true ∧
  marked (final r) 2%positive = true ∧
  marked (final r) 3%positive = false ∧
  w_proto (final r) !! 3%positive = None.
Proof. repeat split; reflexivity. Qed.

(** Registration against the sample page: [HTMLButtonElement] (102) is a
    valid base, the function 104 is not. *)
Example register_sample :
  let reg := register false true sample_doc_register sample_compose
               100%positive sample_toString_name
               sample_Object_prototype sample_object_toString in
  ∃ w1, reg "pd-switch" (VRef 102%positive) [] sample_page = Ret (Factory "pd-switch") w1 ∧
        w_registry w1 !! "pd-switch" = Some (Widget 31%positive (Some "button") None) ∧
        w_selectors w1 =
          (w_selectors sample_page
             ++ [("button[is=" ++ dquote ++ "pd-switch" ++ dquote ++ "]")%string])%list ∧
        reg "pd-switch" (VRef 102%positive) [] w1 =
          Throw (DuplicateTagError "pd-switch") w1.
Proof. eexists. repeat split; reflexivity. Qed.

Lemma register_rejects_witness :
  let reg := register false true sample_doc_register sample_compose
               100%positive sample_toString_name
               sample_Object_prototype sample_object_toString in
  (reg "pd-button" (VRef 102%positive) [] sample_page =
     Throw (DuplicateTagError "pd-button") sample_page ∧
   w_registry sample_page !! "pd-button" = Some (Widget 10%positive None None)) ∧
  reg "pd-other" (VRef 104%positive) [] sample_page =
    Throw InvalidBaseError sample_page ∧
  reg "constructor" (VRef 104%positive) [] sample_page =
    Throw (DuplicateTagError "constructor") sample_page ∧
  reg "constructor" (VRef 102%positive) [] sample_page =
    Throw (DuplicateTagError "constructor") sample_page.
Proof.
  intros reg. split; [|split; [|split]].
  - destruct (register_rejects false true sample_doc_register sample_compose
                100%positive sample_toString_name
                sample_Object_prototype sample_object_toString
                "pd-button" (VRef 102%positive) [] sample_page)
      as (Hr & _ & _ & Hentry).
    + left. reflexivity.
    + split; [exact Hr|]. reflexivity.
  - destruct (register_rejects false true sample_doc_register sample_compose
                100%positive sample_toString_name
                sample_Object_prototype sample_object_toString
                "pd-other" (VRef 104%positive) [] sample_page)
      as (Hr & _).
    + right. reflexivity.
    + exact Hr.
  - destruct (register_rejects false true sample_doc_register sample_compose
                100%positive sample_toString_name
                sample_Object_prototype sample_object_toString
                "constructor" (VRef 104%positive) [] sample_page)
      as (Hr & _).
    + right. reflexivity.
    + exact Hr.
  - destruct (register_rejects false true sample_doc_register sample_compose
                100%positive sample_toString_name
                sample_Object_prototype sample_object_toString
                "constructor" (VRef 102%positive) [] sample_page)
      as (Hr & _).
    + left. reflexivity.
    + exact Hr.
Defined.


Lemma calculated_descriptor_shadowing_witness :
  let d := getShadowCalculatedDescriptor "value" sample_getter sample_setter None in
  d_get d 1%positive sample_bare =
    Ret (VNum 1) (set_own sample_bare 1%positive "_value" (VNum 1)) ∧
  d_set d 1%positive (VNum 4) sample_bare =
    Ret tt (set_own sample_bare 1%positive "_value" (VNum 8)).
Proof.
  destruct (calculated_descriptor_shadowing "value" sample_getter sample_setter
              None 1%positive sample_bare) as (Hget & Hset & _).
  split; [exact Hget|exact (Hset (VNum 4))].
Defined.

(** ** The further properties on the sample stores *)

Lemma dom_attribute_without_node_witness :
  let d := getDomAttributeDescriptor "focusNode" "label" None in
  d_get d 1%positive sample_bare = Ret VNull sample_bare ∧
  ∀ v, d_set d 1%positive v sample_bare =
         Throw (UndefinedNodeError "label") sample_bare.
Proof.
  exact (dom_attribute_without_node "focusNode" "label" None 1%positive
           sample_bare eq_refl).
Defined.

Lemma dom_attribute_stringifies_witness :
  let d := getDomAttributeDescriptor "focusNode" "hidden" None in
  ∃ w1 s, d_set d 1%positive (VBool true) sample_with_node = Ret tt w1 ∧
          d_get d 1%positive w1 = Ret (VStr s) w1 ∧
          (∀ s0, VBool true = VStr s0 → s = s0).
Proof.
  exact (dom_attribute_stringifies "focusNode" "hidden" None 1%positive
           sample_with_node 2%positive (Element "SPAN" ∅ false) (VBool true)
           eq_refl eq_refl eq_refl).
Defined.

Lemma shadow_attribute_with_node_witness :
  let d := getShadowDomAttributeDescriptor "focusNode" "aria-label" None in
  (∃ w1, d_set d 1%positive (VStr "OK") sample_with_node = Ret tt w1 ∧
         ∃ w2, d_get d 1%positive w1 = Ret (VStr "OK") w2) ∧
  (∃ w1, d_set d 1%positive (VStr EmptyString) sample_with_node = Ret tt w1 ∧
         d_get d 1%positive w1 = Ret (VStr EmptyString) w1).
Proof.
  intros d. split.
  - destruct (shadow_attribute_with_node "focusNode" "aria-label" None 1%positive
                sample_with_node 2%positive (Element "SPAN" ∅ false) (VStr "OK")
                eq_refl eq_refl) as (w1 & Hset & Ht & _).
    destruct (Ht eq_refl) as (s & Hs & _ & w2 & Hget & _).
    rewrite (Hs "OK" eq_refl) in Hget. eauto.
  - destruct (shadow_attribute_with_node "focusNode" "aria-label" None 1%positive
                sample_with_node 2%positive (Element "SPAN" ∅ false)
                (VStr EmptyString) eq_refl eq_refl) as (w1 & Hset & _ & Hf).
    destruct (Hf eq_refl) as (_ & Hget).
    exists w1. split; [exact Hset|]. apply Hget. left. discriminate.
Defined.

Lemma shadow_attribute_read_with_node_witness :
  let d := getShadowDomAttributeDescriptor "focusNode" "label" None in
  let w := set_element sample_with_node 2%positive
             (Element "SPAN" {[ "label" := "live" ]} false) in
  ∃ w1, d_get d 1%positive w = Ret (VStr "live") w1 ∧
        Get w1 1%positive "_focusNode_label" = VStr "live".
Proof.
  intros d w.
  destruct (shadow_attribute_read_with_node "focusNode" "label" None 1%positive
              w 2%positive (Element "SPAN" {[ "label" := "live" ]} false)
              eq_refl eq_refl) as [Hlive _].
  destruct (Hlive "live" eq_refl) as (w1 & Hget & Hsp & _). eauto.
Defined.

Lemma calculated_set_then_get_witness :
  let d := getShadowCalculatedDescriptor "value" sample_echo sample_setter None in
  let w1 := set_own sample_bare 1%positive "_value" (VNum 8) in
  d_set d 1%positive (VNum 4) sample_bare = Ret tt w1 ∧
  d_get d 1%positive w1 = Ret (VNum 8) w1.
Proof.
  exact (calculated_set_then_get "value" sample_echo sample_setter None
           1%positive (VNum 4) (VNum 8) sample_bare sample_bare
           (λ _ _, eq_refl) eq_refl).
Defined.

Lemma upgrade_key_is_lowercase_witness :
  ∃ key, upgrade_key 1%positive sample_page = ([], Ret key sample_page) ∧
         toLowerCase key = key ∧ key ≠ "PD-Button".
Proof.
  apply (upgrade_key_is_lowercase 1%positive (Element "PD-BUTTON" ∅ true)
           sample_page "PD-Button" eq_refl).
  - by left.
  - discriminate.
Defined.

Lemma upgrade_reentrant_witness :
  let w2 := set_own (set_proto sample_page 1%positive 10%positive)
              1%positive "__upgraded__" (VBool true) in
  In (EvReady 1%positive 1%positive (VRef 10%positive) w2)
     (log_of (upgrade true sample_call sample_Object_prototype 1%positive sample_page)) ∧
  upgrade true sample_call
      sample_Object_prototype 1%positive w2 = ([EvUpgrade 1%positive], Ret tt w2).
Proof.
  exact (upgrade_reentrant true sample_call sample_Object_prototype 1%positive
           (Element "PD-BUTTON" ∅ true) (Widget 10%positive None None)
           sample_page (set_proto sample_page 1%positive 10%positive)
           11%positive 1%positive eq_refl eq_refl eq_refl eq_refl eq_refl eq_refl).
Defined.

Lemma upgrade_without_callbacks_witness :
  (let w2 := set_own (set_proto sample_plain_page 7%positive 40%positive)
               7%positive "__upgraded__" (VBool true) in
   upgrade true sample_call sample_Object_prototype 7%positive sample_plain_page =
     ([EvUpgrade 7%positive; EvPrototype 7%positive; EvMarked 7%positive],
      Ret tt w2) ∧
   w_proto w2 !! 7%positive = Some 40%positive) ∧
  (let w2 := set_own (defineProperties sample_plain_page 7%positive
                        {[ "label" := VStr "plain" ]})
               7%positive "__upgraded__" (VBool true) in
   upgrade false sample_call sample_Object_prototype 7%positive sample_plain_page =
     ([EvUpgrade 7%positive; EvPrototype 7%positive; EvMarked 7%positive],
      Ret tt w2) ∧
   w_proto w2 = w_proto sample_plain_page).
Proof.
  split.
  - destruct (upgrade_without_callbacks true sample_call sample_Object_prototype 7%positive
                (Element "PD-PLAIN" ∅ true)
                (Widget 40%positive None (Some {[ "label" := VStr "plain" ]}))
                sample_plain_page (set_proto sample_plain_page 7%positive 40%positive)
                eq_refl eq_refl eq_refl eq_refl eq_refl eq_refl)
      as (Hup & _ & _ & _ & _ & Heasy & _).
    split; [exact Hup|]. exact (proj1 (Heasy eq_refl)).
  - destruct (upgrade_without_callbacks false sample_call sample_Object_prototype 7%positive
                (Element "PD-PLAIN" ∅ true)
                (Widget 40%positive None (Some {[ "label" := VStr "plain" ]}))
                sample_plain_page
                (defineProperties sample_plain_page 7%positive
                   {[ "label" := VStr "plain" ]})
                eq_refl eq_refl eq_refl eq_refl eq_refl eq_refl)
      as (Hup & _ & _ & _ & _ & _ & Hhard).
    split; [exact Hup|]. exact (proj1 (Hhard eq_refl)).
Defined.

Lemma upgrade_without_snapshot_witness :
  upgrade false sample_call sample_Object_prototype 1%positive sample_page =
    ([EvUpgrade 1%positive], Throw NativeTypeError sample_page) ∧
  upgrade false sample_call sample_Object_prototype 1%positive
    (final (upgrade false sample_call sample_Object_prototype 1%positive sample_page)) =
    ([EvUpgrade 1%positive], Throw NativeTypeError sample_page).
Proof.
  exact (upgrade_without_snapshot false sample_call sample_Object_prototype 1%positive
           (Element "PD-BUTTON" ∅ true) (Widget 10%positive None None)
           sample_page eq_refl eq_refl eq_refl eq_refl eq_refl).
Defined.

Lemma parse_aborts_witness :
  let r := parse false true sample_call sample_query_broken
      sample_Object_prototype None sample_page in
  (∃ w2, result_of r = Throw (UserError (VStr "boom")) w2 ∧
         marked w2 1%positive = true ∧ marked w2 2%positive = false) ∧
  upgraded_nodes (log_of r) = [1%positive; 4%positive].
Proof.
  intros r.
  destruct (parse_aborts false true sample_call sample_query_broken
      sample_Object_prototype None
              sample_page [1%positive] 4%positive [2%positive] sample_page
              (upgrade_each true sample_call
                  sample_Object_prototype [1%positive] sample_page).1
              (final (upgrade_each true sample_call
                  sample_Object_prototype [1%positive] sample_page))
              (upgrade true sample_call sample_Object_prototype 4%positive
                 (final (upgrade_each true sample_call
                     sample_Object_prototype [1%positive] sample_page))).1
              (final (upgrade true sample_call sample_Object_prototype 4%positive
                 (final (upgrade_each true sample_call
                     sample_Object_prototype [1%positive] sample_page))))
              (UserError (VStr "boom"))
              eq_refl eq_refl eq_refl eq_refl) as [Hp Hn].
  split; [|exact Hn].
  eexists. subst r. rewrite Hp. split; [reflexivity|]. split; reflexivity.
Defined.

Lemma parse_query_grows_witness :
  (∃ rest, log_of (parse false true sample_call sample_query
      sample_Object_prototype None sample_bare) =
             EvQuery None EmptyString :: rest) ∧
  (∃ rest, log_of (parse false true sample_call sample_query sample_Object_prototype None
                     (push_selector sample_bare "pd-x")) =
             EvQuery None "pd-x" :: rest) ∧
  (∃ rest, log_of (parse false true sample_call sample_query sample_Object_prototype None
                     (push_selector sample_page "pd-x")) =
             EvQuery None (join (w_selectors sample_page) ++ ",pd-x") :: rest).
Proof.
  destruct (parse_query_grows false true sample_call sample_query
      sample_Object_prototype None
              sample_bare (push_selector sample_bare "pd-x") "pd-x"
              eq_refl eq_refl) as [Hempty Hone].
  split; [exact (Hempty eq_refl)|]. split; [exact Hone|].
  exact (proj2 (parse_query_grows false true sample_call sample_query
      sample_Object_prototype None
                  sample_page (push_selector sample_page "pd-x") "pd-x"
                  eq_refl eq_refl)).
Defined.

Lemma register_records_witness :
  let reg := register false true sample_doc_register sample_compose
               100%positive sample_toString_name
               sample_Object_prototype sample_object_toString in
  (let w1 := world_of (reg "pd-switch" (VRef 102%positive) [] sample_page) in
   ∃ config,
     w_registry w1 !! "pd-switch" = Some config ∧
     wg_extends config = Some "button" ∧
     Get w1 (wg_prototype config) "_ctor" = VRef 30%positive ∧
     w_selectors w1 =
       (w_selectors sample_page
          ++ [("button[is=" ++ dquote ++ "pd-switch" ++ dquote ++ "]")%string])%list) ∧
  (let w1 := world_of (reg "pd-odd" (VRef 106%positive) [] sample_ctor_page) in
   let base := "function Object() { [native code] }" in
   ∃ config,
     w_registry w1 !! "pd-odd" = Some config ∧
     wg_extends config = Some base ∧
     w_selectors w1 =
       (w_selectors sample_ctor_page
          ++ [(base ++ "[is=" ++ dquote ++ "pd-odd" ++ dquote ++ "]")%string])%list).
Proof.
  intros reg. split.
  - intros w1.
    destruct (register_records false true sample_doc_register sample_compose
                100%positive sample_toString_name
                sample_Object_prototype sample_object_toString
                "pd-switch" (VRef 102%positive) [] sample_page
                (Factory "pd-switch") w1 eq_refl eq_refl)
      as (baseName & ctor & w2 & config & Hc & _ & Hentry & _ & Hctor & Hbn & _
          & Hext & _).
    injection Hc as <- <-.
    pose proof (Hentry : Some (Widget 31%positive (Some "button") None) = Some config)
      as Hcfg.
    injection Hcfg as <-.
    pose proof (Hbn : VStr "HTMLButtonElement" = baseName) as <-.
    destruct (Hext ltac:(discriminate) "button" eq_refl) as (_ & Hcfg & Hsel).
    exists (Widget 31%positive (Some "button") None).
    split; [exact Hentry|]. split; [exact Hcfg|]. split; [exact Hctor|exact Hsel].
  - intros w1 base.
    destruct (register_records false true sample_doc_register sample_compose
                100%positive sample_toString_name
                sample_Object_prototype sample_object_toString
                "pd-odd" (VRef 106%positive) [] sample_ctor_page
                (Factory "pd-odd") w1 eq_refl eq_refl)
      as (baseName & ctor & w2 & config & Hc & _ & Hentry & _ & _ & Hbn & _
          & _ & Hinh & _).
    injection Hc as <- <-.
    pose proof (Hentry : Some (Widget 31%positive (Some base) None) = Some config)
      as Hcfg.
    injection Hcfg as <-.
    pose proof (Hbn : VStr "constructor" = baseName) as <-.
    destruct (Hinh ltac:(discriminate) eq_refl) as (_ & Hcfg & Hsel).
    exists (Widget 31%positive (Some base) None).
    split; [exact Hentry|]. split; [exact Hcfg|exact Hsel].
Defined.

Lemma register_recomposition_witness :
  let reg := register false true sample_doc_register sample_compose
               100%positive sample_toString_name
               sample_Object_prototype sample_object_toString in
  let w1 := world_of (reg "pd-switch" (VRef 102%positive) [] sample_page) in
  getBaseName sample_toString_name (VRef 30%positive) w1 =
    Ret (VStr "HTMLButtonElement") w1 ∧
  restore w1 (VRef 30%positive) = VRef 30%positive.
Proof.
  intros reg w1.
  destruct (register_recomposition false true sample_doc_register sample_compose
              100%positive sample_toString_name
               sample_Object_prototype sample_object_toString
              "pd-switch" (VRef 102%positive) [] sample_page
              (Factory "pd-switch") w1 eq_refl eq_refl)
    as (baseName & ctor & w2 & Hc & Hbase & Hbn & Hrestore).
  injection Hc as <- <-. injection Hbase as <-.
  split; [exact Hbn|exact Hrestore].
Defined.


Lemma register_rejects_base_name_witness :
  let reg := register false true sample_doc_register sample_compose
               100%positive sample_toString_name
               sample_Object_prototype sample_object_toString in
  reg "pd-foo" (VRef 106%positive) [] sample_foo_page =
    Throw (UnrecognizedBaseError "Foo") sample_foo_page ∧
  reg "pd-bar" (VRef 106%positive) []
    (set_own sample_foo_page 106%positive "name" (VStr EmptyString)) =
    Throw UnresolvableBaseNameError
      (set_own sample_foo_page 106%positive "name" (VStr EmptyString)).
Proof.
  intros reg. split.
  - destruct (register_rejects_base_name false true sample_doc_register
                sample_compose 100%positive sample_toString_name
                sample_Object_prototype sample_object_toString
                "pd-foo" (VRef 106%positive) [] sample_foo_page (VStr "Foo")
                eq_refl eq_refl eq_refl) as [_ H].
    apply H; [reflexivity|discriminate|reflexivity|reflexivity].
  - destruct (register_rejects_base_name false true sample_doc_register
                sample_compose 100%positive sample_toString_name
                sample_Object_prototype sample_object_toString
                "pd-bar" (VRef 106%positive) []
                (set_own sample_foo_page 106%positive "name" (VStr EmptyString))
                VUndef eq_refl eq_refl eq_refl) as [H _].
    by apply H.
Defined.

(** A class name that the table inherits is not rejected: the
    constructor 106 of this page is called [constructor], and its widget is
    registered as an extension of what [Object] shows as a string. *)
Example register_sample_inherited :
  let reg := register false true sample_doc_register sample_compose
               100%positive sample_toString_name
               sample_Object_prototype sample_object_toString in
  ∃ w1, reg "pd-odd" (VRef 106%positive) [] sample_ctor_page =
          Ret (Factory "pd-odd") w1 ∧
        w_registry w1 !! "pd-odd" =
          Some (Widget 31%positive
                  (Some "function Object() { [native code] }") None).
Proof. eexists. split; reflexivity. Qed.

Lemma register_native_witness :
  let reg := register true true sample_doc_register sample_compose
               100%positive sample_toString_name
               sample_Object_prototype sample_object_toString in
  let w1 := world_of (reg "pd-switch" (VRef 102%positive) [] sample_page) in
  reg "pd-switch" (VRef 102%positive) [] sample_page = Ret (NativeCtor VUndef) w1 ∧
  (∃ config, w_registry w1 !! "pd-switch" = Some config ∧
             wg__prototype config = None) ∧
  w_selectors w1 = w_selectors sample_page.
Proof.
  intros reg w1.
  destruct (register_native true true sample_doc_register sample_compose
              100%positive sample_toString_name
               sample_Object_prototype sample_object_toString
              "pd-switch" (VRef 102%positive) [] sample_page
              (NativeCtor VUndef) w1 eq_refl eq_refl)
    as (w0 & config & v & Hentry & Hsnap & (ctor & w2 & Hc & Hsel) & Hd & _).
  injection Hc as <- <-. injection Hd as _ Hw. rewrite Hw in Hentry, Hsel.
  split; [reflexivity|]. split; [by exists config|exact Hsel].
Defined.

Lemma createElement_plain_witness :
  createElement true sample_call sample_createElement
      sample_Object_prototype sample_object_toString "span" sample_page =
    ([EvUpgrade 50%positive],
     Ret 50%positive
       (set_element sample_page 50%positive (Element "span" ∅ false))).
Proof.
  destruct (createElement_plain true sample_call sample_createElement
      sample_Object_prototype sample_object_toString "span"
              sample_page eq_refl) as [H _].
  destruct (H 50%positive
              (set_element sample_page 50%positive (Element "span" ∅ false))
              eq_refl) as (_ & _ & _ & Hplain).
  by apply (Hplain (Element "span" ∅ false)).
Defined.

(** The host's element for the tag [Constructor] has the key
    [constructor], which [registry] inherits: it does not come back as the
    host made it. *)
Example createElement_sample_inherited :
  createElement true sample_call sample_createElement
    sample_Object_prototype sample_object_toString "Constructor" sample_page =
    (let w1 := set_element sample_page 50%positive
                 (Element "Constructor" ∅ false) in
     ([EvUpgrade 50%positive; EvPrototype 50%positive; EvMarked 50%positive],
      Ret 50%positive
        (set_own (set_proto w1 50%positive 105%positive)
           50%positive "__upgraded__" (VBool true)))).
Proof. reflexivity. Qed.

Lemma createElement_extends_witness :
  let w1 := set_element sample_page 50%positive (Element "button" ∅ false) in
  let w2 := set_element w1 50%positive
              (Element "button" {[ "is" := "pd-toggle" ]} false) in
  log_of (createElement true sample_call sample_createElement
      sample_Object_prototype sample_object_toString "pd-toggle" sample_page) =
    log_of (upgrade true sample_call sample_Object_prototype 50%positive w2) ∧
  upgrade_key 50%positive w2 = ([], Ret "pd-toggle" w2) ∧
  marked (final (createElement true sample_call sample_createElement
      sample_Object_prototype sample_object_toString
                   "pd-toggle" sample_page)) 50%positive = true.
Proof.
  intros w1 w2.
  destruct (createElement_extends true sample_call sample_createElement
      sample_Object_prototype sample_object_toString
              "pd-toggle" (Widget 10%positive (Some "button") None) "button"
              sample_page 50%positive w1 (Element "button" ∅ false)
              eq_refl eq_refl eq_refl eq_refl) as (Hlog & _ & Hkey).
  split; [exact Hlog|]. split; [|reflexivity].
  apply Hkey. discriminate.
Defined.
